(** * Recommendation core of the travel backend

    A shallow embedding of [backend/recommendations/scoring_service.py],
    [backend/recommendations/trend_analyzer.py], the model classes they
    touch ([recommendations/models.py], [locations/models.py],
    [user/models.py]) and the DTOs of [recommendations/dtos.py].

    Conventions of the embedding:
    - in the model classes and in [ScoringService], Python [float]
      values are real numbers ([R]): ranking, filtering and range
      properties are stated in exact arithmetic. The two numeric
      functions, [calculate_similarity] and [_calculate_distance_decay],
      are embedded a second time in [Binary64], on IEEE 754 doubles and
      with the exceptions CPython raises; what depends on rounding,
      overflow or underflow is stated there.
    - a Django table whose rows are looked up by a unique key is a [gmap]
      from that key; the POI and Interaction tables, which are iterated,
      are lists in storage order, and a queryset without [order_by]
      yields rows in that order.
    - a UUID primary key is its 128-bit integer value ([N]).
    - a [datetime] is its position on the time line, in seconds since the
      epoch (UTC); the calendar gives its month. *)

From Stdlib Require Import Reals Lra Lia ZArith.
From Stdlib Require Floats.SpecFloat.
From stdpp Require Import gmap strings list fin_maps sorting.

(** ** Python helpers *)

Module Py.

#[global] Instance R_eq_dec : EqDecision R := Req_dec_T.
#[global] Instance Rle_decision (x y : R) : Decision (x <= y)%R := Rle_dec x y.
#[global] Instance Rlt_decision (x y : R) : Decision (x < y)%R := Rlt_dec x y.

(** Outcome of a call that may raise. A call that raises has written
    nothing: every raise below comes before the first write of its
    function. *)
Inductive exn : Type :=
| DoesNotExist
| NotFound
| InvalidInput
| StoreUnavailable
| ValidationError
| TypeError
| ValueError
| OverflowError
| ZeroDivisionError.

Inductive result (A : Type) : Type :=
| Returned (a : A)
| Raised (e : exn).
Arguments Returned {A} a.
Arguments Raised {A} e.

#[global] Instance result_ret : MRet result := @Returned.
#[global] Instance result_bind : MBind result :=
  λ A B f m, match m with Returned a => f a | Raised e => Raised e end.

(** The value of a call that returned. *)
Definition returned {A} (m : result A) : option A :=
  match m with Returned a => Some a | Raised _ => None end.

(** [sum(xs)]: left-to-right accumulation starting from 0. *)
Definition sum (xs : list R) : R := fold_left Rplus xs 0%R.

(** [max(xs)] on a non-empty sequence [x :: xs]: the first maximal
    element, replaced only by a strictly greater one. *)
Definition max_by {A} (key : A → Z) (x : A) (xs : list A) : A :=
  fold_left (λ best y, if (key best <? key y)%Z then y else best) xs x.

Definition max_float (x : R) (xs : list R) : R :=
  fold_left (λ best y, if decide (best < y)%R then y else best) xs x.

(** [l[:n]] with Python's reading of a negative bound. *)
Definition slice_to {A} (l : list A) (n : Z) : list A :=
  if (0 <=? n)%Z then take (Z.to_nat n) l
  else take (length l - Z.to_nat (- n)) l.

(** [enumerate(l)]. *)
Definition enumerate {A} (l : list A) : list (nat * A) :=
  imap (λ i x, (i, x)) l.

Section StableSort.
Context {A : Type} (lt : A → A → bool).

(** [insert x l] puts [x] in front of the first element that is not
    strictly before it. *)
Fixpoint insert (x : A) (l : list A) : list A :=
  match l with
  | [] => [x]
  | y :: l' => if lt y x then y :: insert x l' else x :: y :: l'
  end.

(** A stable sort: [list.sort] and [sorted] keep items with equal keys
    in their incoming order, and every stable sort returns the same
    list. For an SQL [ORDER BY] the order of rows with equal keys is the
    database's choice; it is taken to be the incoming order as well. *)
Definition sort (l : list A) : list A := foldr insert [] l.
End StableSort.

(** [l.sort(key=..., reverse=True)] on float keys. *)
Definition sort_desc_float {A} (key : A → R) : list A → list A :=
  sort (λ y x, bool_decide (key y > key x)%R).

(** [order_by('-count')] on integer keys. *)
Definition sort_desc_int {A} (key : A → Z) : list A → list A :=
  sort (λ y x, (key x <? key y)%Z).

(** [sorted(d.items())] of a dict with string keys: ascending by key. *)
Definition sorted_items {V} (d : gmap string V) : list (string * V) :=
  sort (λ y x, negb (String.leb x.1 y.1)) (map_to_list d).

End Py.
Import Py.

(** ** Model classes *)

Abbreviation uuid := N (only parsing).

Abbreviation datetime := Z (only parsing).

(** [timedelta(hours=h)] in seconds. *)
Definition timedelta_hours (h : Z) : Z := (h * 3600)%Z.

(** [datetime.min] and [datetime.max], the first second of year 1 and
    the last of year 9999, and the largest number of days of a
    [timedelta]. *)
Definition datetime_min : datetime := (-62135596800)%Z.
Definition datetime_max : datetime := 253402300799%Z.
Definition timedelta_max_days : Z := 999999999%Z.

(** [t + timedelta(hours=h)] with its range checks: the constructor
    refuses more than [timedelta_max_days] days either way, the addition
    a result outside [datetime.min .. datetime.max]; both raise
    [OverflowError]. *)
Definition add_hours (t : datetime) (h : Z) : result datetime :=
  if decide (- timedelta_max_days ≤ timedelta_hours h `div` 86400
             ≤ timedelta_max_days)%Z
  then
    let r := (t + timedelta_hours h)%Z in
    if decide (datetime_min ≤ r ≤ datetime_max)%Z then Returned r
    else Raised OverflowError
  else Raised OverflowError.

(** Values of a request body that reach the code untyped. An id is
    what [UUIDField.to_python] makes of it: a UUID, or a
    [ValidationError]. A duration is a JSON integer, or a value
    [timedelta] refuses with [TypeError] (a string, null, an array, an
    object); fractional hours are left out. *)
Inductive id_value : Type :=
| Uuid (id : uuid)
| Malformed_id.

Inductive hours_value : Type :=
| Hours (h : Z)
| Not_a_number.

(** [datetime.month]: the civil month of a moment. *)
Class Calendar := {
  month : datetime → Z
}.

(** The proleptic Gregorian calendar in UTC: days since the epoch are
    shifted to an era of 400 years starting on 1 March, then to the year
    of the era, the day of that year and the month. *)
Definition utc_month (t : datetime) : Z :=
  let days := (t / 86400)%Z in
  let z := (days + 719468)%Z in
  let era := (z / 146097)%Z in
  let doe := (z - era * 146097)%Z in
  let yoe := ((doe - doe / 1460 + doe / 36524 - doe / 146096) / 365)%Z in
  let doy := (doe - (365 * yoe + yoe / 4 - yoe / 100))%Z in
  let mp := ((5 * doy + 2) / 153)%Z in
  if (mp <? 10)%Z then (mp + 3)%Z else (mp - 9)%Z.

Definition utc_calendar : Calendar := {| month := utc_month |}.

(** [django.contrib.gis.geos.Point]: [x] is the longitude, [y] the latitude. *)
Record Point := {
  x : R;
  y : R
}.

(** [locations.models.POI] *)
Record POI := {
  poi_id : uuid;
  name : string;
  location : Point;
  category : string;
  average_rating : R;
  tags : list string
}.

(** [user.models.UserProfile] *)
Record UserProfile := {
  user_id : uuid;
  preferences_vector : gmap string R
}.

(** [recommendations.models.InteractionType] *)
Inductive InteractionType : Type :=
| VIEW | LIKE | SHARE | VISIT | CLICK | CHECK_IN.

#[global] Instance InteractionType_eq_dec : EqDecision InteractionType.
Proof. solve_decision. Defined.

(** [recommendations.models.Interaction]; [user] and [poi] are foreign keys. *)
Record Interaction := {
  i_user : uuid;
  i_poi : uuid;
  interaction_type : InteractionType;
  timestamp : datetime
}.

(** [recommendations.models.TrendingList], keyed by [geohash]. *)
Record TrendingList := {
  tl_pois : list uuid;
  tl_created_at : datetime;
  tl_updated_at : datetime
}.

(** [recommendations.models.BlacklistedPOI], one per POI. *)
Record BlacklistedPOI := {
  reason : string;
  bl_created_at : datetime;
  expires_at : datetime
}.

Inductive Season : Type := SPRING | SUMMER | FALL | WINTER.

#[global] Instance Season_eq_dec : EqDecision Season.
Proof. solve_decision. Defined.

(** [recommendations.models.SeasonalMetadata], one per POI. *)
Record SeasonalMetadata := {
  peak_season : Season;
  visit_count_spring : Z;
  visit_count_summer : Z;
  visit_count_fall : Z;
  visit_count_winter : Z;
  last_analyzed_at : datetime
}.

(** The tables the core reads and writes. *)
Record DB := {
  pois : list POI;
  profiles : gmap uuid UserProfile;
  interactions : list Interaction;
  trending_lists : gmap string TrendingList;
  blacklist_entries : gmap uuid BlacklistedPOI;
  seasonal_metadata : gmap uuid SeasonalMetadata
}.

(** What the spatial backend computes for the core: PostGIS distance in
    metres, [geohash2.decode_exactly], and the open/closed column a
    deployment may add to POI. *)
Class GIS := {
  DistanceFunc : Point → Point → R;
  decode_exactly : string → R * R * R * R;
  is_open : POI → bool
}.

(** ** DTOs *)

Record PointDTO := {
  latitude : R;
  longitude : R
}.

Record ContextDTO := {
  user_location : PointDTO;
  is_open_only : bool;
  radius_meters : R;
  max_results : Z
}.

Record ScoredPOI := {
  s_poi_id : uuid;
  s_poi_name : string;
  s_latitude : R;
  s_longitude : R;
  s_category : string;
  s_average_rating : R;
  final_score : R;
  similarity_score : R;
  distance_score : R;
  rating_score : R;
  distance_meters : option R;
  s_tags : list string
}.

(** ** [recommendations/scoring_service.py] *)

Module ScoringService.

Record t := {
  WEIGHT_INTEREST : R;
  WEIGHT_DISTANCE : R;
  WEIGHT_RATING : R
}.

(** [__init__]; the warning it prints when the weights do not sum to
    about 1 changes nothing in the object and is left out. *)
Definition __init__ (weight_interest weight_distance weight_rating : R) : t :=
  {| WEIGHT_INTEREST := weight_interest;
     WEIGHT_DISTANCE := weight_distance;
     WEIGHT_RATING := weight_rating |}.

(** [ScoringService()] with the default arguments. *)
Definition default_service : t := __init__ 0.5 0.2 0.3.

Definition vector_dimension : nat := 100.

(** Lines printed by the service. *)
Inductive log_line : Type :=
| User_not_found (user_id : uuid).

Definition calculate_similarity (user_vec poi_vec : list R) : R :=
  match user_vec, poi_vec with
  | [], _ | _, [] => 0
  | _, _ =>
      let min_len := Nat.min (length user_vec) (length poi_vec) in
      let user_vec := take min_len user_vec in
      let poi_vec := take min_len poi_vec in
      let dot_product := sum (zip_with Rmult user_vec poi_vec) in
      let user_magnitude := sqrt (sum (map (λ u, u ^ 2) user_vec)) in
      let poi_magnitude := sqrt (sum (map (λ p, p ^ 2) poi_vec)) in
      if decide (user_magnitude = 0) then 0
      else if decide (poi_magnitude = 0) then 0
      else
        let similarity := dot_product / (user_magnitude * poi_magnitude) in
        Rmax 0 (Rmin 1 similarity)
  end%R.

(** The normaliser of [_get_user_vector]: the largest stored weight, or 1
    when that is 0 (or the dict is empty). *)
Definition max_weight_of (pv : gmap string R) : R :=
  let max_weight :=
    match (map_to_list pv).*2 with
    | [] => 1%R
    | v :: vs => max_float v vs
    end in
  if decide (max_weight = 0%R) then 1%R else max_weight.

Definition _get_user_vector (user : UserProfile) : list R :=
  let pv := preferences_vector user in
  if decide (pv = ∅) then replicate vector_dimension 0%R
  else
    let vector := replicate vector_dimension 0%R in
    let max_weight := max_weight_of pv in
    fold_left
      (λ vector '(i, (tag, weight)),
         if decide (i < vector_dimension)%nat
         then <[i := (weight / max_weight)%R]> vector
         else vector)
      (enumerate (sorted_items pv)) vector.

Definition _get_poi_vector (poi : POI) : list R :=
  let vector := replicate vector_dimension 0%R in
  match tags poi with
  | [] => vector
  | _ =>
      fold_left
        (λ vector '(i, tag), <[i := (1 / INR (length (tags poi)))%R]> vector)
        (enumerate (take vector_dimension (tags poi))) vector
  end.

Definition _calculate_distance_decay (distance_meters : option R) : R :=
  match distance_meters with
  | None => 1
  | Some d =>
      if decide (d = 0) then 1
      else if decide (d < 0) then 1
      else
        let decay := exp (- d / 1000) in
        Rmax 0 decay
  end%R.

(** Returns [(final_score, similarity_score, distance_score, rating_score)]. *)
Definition compute_score (self : t) (poi : POI) (user : UserProfile)
    (distance : option R) : R * R * R * R :=
  let user_vector := _get_user_vector user in
  let poi_vector := _get_poi_vector poi in
  let similarity_score := calculate_similarity user_vector poi_vector in
  let rating_score :=
    if decide (average_rating poi = 0%R) then 0%R
    else (average_rating poi / 5)%R in
  let distance_score :=
    match distance with
    | None => 1%R
    | Some d =>
        if decide (d = 0%R) then 1%R
        else _calculate_distance_decay distance
    end in
  let final_score :=
    (similarity_score * WEIGHT_INTEREST self
     + rating_score * WEIGHT_RATING self
     + distance_score * WEIGHT_DISTANCE self)%R in
  (final_score, similarity_score, distance_score, rating_score).

(** ['is_open' in POI._meta.get_fields()]: [get_fields()] is a tuple of
    field objects, none of which compares equal to a string, and POI
    declares no such column, so the membership test is False. *)
Definition is_open_in_meta_fields : bool := false.

(** Step 1: [Point(longitude, latitude, srid=4326)]. *)
Definition user_point (context : ContextDTO) : Point :=
  {| x := longitude (user_location context);
     y := latitude (user_location context) |}.

Section Recommendations.
Context `{GIS}.

(** The queryset built in step 2: POIs annotated with their distance,
    kept when within the radius, dropped when a blacklist row points
    at them ([exclude(blacklist_entry__isnull=False)]). *)
Definition candidate_pois (db : DB) (context : ContextDTO) : list (POI * R) :=
  let annotated :=
    map (λ poi, (poi, DistanceFunc (location poi) (user_point context))) (pois db) in
  let within := filter (λ pd, (pd.2 <= radius_meters context)%R) annotated in
  let kept :=
    filter (λ pd, blacklist_entries db !! poi_id pd.1 = None) within in
  if is_open_only context && is_open_in_meta_fields
  then filter (λ pd, is_open pd.1 = true) kept
  else kept.

(** The body of the loop of step 3 for one row; the row carries the
    [distance] annotation, so [distance_meters] is [poi.distance.m]. *)
Definition score_candidate (self : t) (user : UserProfile)
    (pd : POI * R) : ScoredPOI :=
  let poi := pd.1 in
  let distance_meters := Some pd.2 in
  let '(final_score, sim_score, dist_score, rating_score) :=
    compute_score self poi user distance_meters in
  {| s_poi_id := poi_id poi;
     s_poi_name := name poi;
     s_latitude := y (location poi);
     s_longitude := x (location poi);
     s_category := category poi;
     s_average_rating := average_rating poi;
     final_score := final_score;
     similarity_score := sim_score;
     distance_score := dist_score;
     rating_score := rating_score;
     distance_meters := distance_meters;
     s_tags := tags poi |}.

(** The [except] branch of step 3, which drops a candidate whose
    scoring raised, is left out: in exact arithmetic no call in the loop
    body raises. On doubles the squares of [calculate_similarity] can
    overflow (see [Binary64.float_pow2]), which takes a negative stored
    weight; with non-negative weights every entry of both vectors lies
    between 0 and 1. *)
Definition generate_recommendations (self : t) (db : DB)
    (user : UserProfile) (context : ContextDTO) : list ScoredPOI :=
  let scored_pois := map (score_candidate self user) (candidate_pois db context) in
  let scored_pois := sort_desc_float final_score scored_pois in
  slice_to scored_pois (max_results context).
End Recommendations.

(** [UserProfile.objects.get(id=user_id)] *)
Definition objects_get (db : DB) (user_id : uuid) : result UserProfile :=
  match profiles db !! user_id with
  | Some profile => Returned profile
  | None => Raised DoesNotExist
  end.

(** [UserProfile.update_vector] in [user/models.py]: the body is
    [return  # TODO:], so the stored profile is left as it is. *)
Definition update_vector (db : DB) (self : UserProfile) (tag : string)
    (weight : R) : DB := db.

Definition weight_map (interaction : InteractionType) : option R :=
  match interaction with
  | VIEW => Some 0.1
  | LIKE => Some 0.3
  | SHARE => Some 0.4
  | VISIT => Some 0.5
  | CLICK => Some 0.2
  | CHECK_IN => Some 0.6
  end%R.

(** [Interaction.objects.filter(user=..., interaction_type=...)
    .order_by('-timestamp')[:1]] *)
Definition recent_interactions (db : DB) (user_profile : UserProfile)
    (interaction : InteractionType) : list Interaction :=
  take 1
    (sort_desc_int timestamp
       (filter (λ i, i_user i = user_id user_profile
                     ∧ interaction_type i = interaction)
          (interactions db))).

(** Follows the foreign key [interaction.poi]. *)
Definition poi_of (db : DB) (i : Interaction) : result POI :=
  match list_find (λ p, poi_id p = i_poi i) (pois db) with
  | Some (_, p) => Returned p
  | None => Raised DoesNotExist
  end.

Definition update_user_vector (db : DB) (user_id : uuid)
    (interaction : InteractionType) : result (DB * list log_line) :=
  match objects_get db user_id with
  | Raised DoesNotExist => Returned (db, [User_not_found user_id])
  | Raised e => Raised e
  | Returned user_profile =>
      match recent_interactions db user_profile interaction with
      | [] => Returned (db, [])
      | recent_interaction :: _ =>
          match poi_of db recent_interaction with
          | Raised e => Raised e
          | Returned poi =>
              let poi_tags := tags poi in
              match poi_tags with
              | [] => Returned (db, [])
              | _ =>
                  let weight_increment := default 0.1%R (weight_map interaction) in
                  Returned
                    (fold_left
                       (λ db tag, update_vector db user_profile tag weight_increment)
                       poi_tags db, [])
              end
          end
      end
  end.

End ScoringService.

(** ** The arithmetic of [scoring_service.py] on IEEE doubles

    [calculate_similarity] and [_calculate_distance_decay] once more,
    with Python's [float] as an IEEE 754 binary64 number (the standard
    library's [SpecFloat] at precision 53 and exponents up to 1024,
    rounding to nearest even) and with the exceptions CPython raises. *)

Module Binary64.
Import SpecFloat.

Definition prec : Z := 53.
Definition emax : Z := 1024.

Abbreviation float := spec_float (only parsing).

Definition add : float → float → float := SFadd prec emax.
Definition sub : float → float → float := SFsub prec emax.
Definition mul : float → float → float := SFmul prec emax.
Definition div : float → float → float := SFdiv prec emax.
Definition sqrt : float → float := SFsqrt prec emax.
Definition opp : float → float := SFopp.
Definition fabs : float → float := SFabs.
Definition eqb : float → float → bool := SFeqb.
Definition ltb : float → float → bool := SFltb.
Definition leb : float → float → bool := SFleb.

(** The double an integer literal denotes. *)
Definition of_Z (z : Z) : float := binary_normalize prec emax z 0 false.

Definition zero : float := S754_zero false.
Definition one : float := of_Z 1.

Definition is_nan (x : float) : bool :=
  match x with S754_nan => true | _ => false end.

Definition is_infinity (x : float) : bool :=
  match x with S754_infinity _ => true | _ => false end.

Definition is_finite (x : float) : bool :=
  match x with S754_zero _ | S754_finite _ _ _ => true | _ => false end.

(** A zero of either sign. *)
Definition is_zero (x : float) : Prop :=
  match x with S754_zero _ => True | _ => False end.

(** What the interpreter takes from its platform: the C library's [pow]
    and [exp], which the C standard does not require to round
    correctly, and whether the built-in [sum] compensates rounding
    errors (CPython 3.12 and later) or adds naively (before). [errno]
    is read as glibc sets it: [ERANGE] only together with an infinite
    or a zero result. *)
Class Platform := {
  libm_pow : float → float → float;
  libm_exp : float → float;
  compensated_sum : bool
}.

(** [x ** 2] on a float, [float_pow] of [floatobject.c]: NaN, the
    infinities, the zeros and a base of magnitude 1 are answered by the
    interpreter; every other base goes to the platform's [pow] by its
    absolute value (the exponent is even), and an infinite result is
    an [OverflowError]. *)
Definition float_pow2 `{Platform} (x : float) : result float :=
  match x with
  | S754_nan => Returned S754_nan
  | S754_infinity _ => Returned (S754_infinity false)
  | S754_zero _ => Returned zero
  | S754_finite _ _ _ =>
      let iv := fabs x in
      if eqb iv one then Returned one
      else
        let ix := libm_pow iv (of_Z 2) in
        if is_infinity ix then Raised OverflowError else Returned ix
  end.

(** [a / b] on floats. *)
Definition float_div (a b : float) : result float :=
  if eqb b zero then Raised ZeroDivisionError else Returned (div a b).

(** [math_1] of [mathmodule.c], the wrapper of the one-argument
    functions of [math]. *)
Definition math_1 (func : float → float) (can_overflow : bool) (x : float)
    : result float :=
  let r := func x in
  if is_nan r && negb (is_nan x) then Raised ValueError
  else if is_infinity r && is_finite x
       then Raised (if can_overflow then OverflowError else ValueError)
       else Returned r.

(** [math.sqrt]; the square root is an IEEE operation. *)
Definition math_sqrt : float → result float := math_1 sqrt false.

(** [math.exp] *)
Definition math_exp `{Platform} : float → result float := math_1 libm_exp true.

(** [min(a, b)] and [max(a, b)]: the second argument replaces the first
    when it compares strictly smaller, respectively greater. *)
Definition min (a b : float) : float := if ltb b a then b else a.
Definition max (a b : float) : float := if ltb a b then b else a.

(** One step of the compensated summation (Neumaier's variant of
    Kahan's) on the running sum and its compensation. *)
Definition neumaier_step (acc : float * float) (x : float) : float * float :=
  let '(f_result, c) := acc in
  let t := add f_result x in
  if leb (fabs x) (fabs f_result)
  then (t, add c (add (sub f_result t) x))
  else (t, add c (add (sub x t) f_result)).

(** [sum(xs)] of floats: the integer start value 0 plus the first item,
    then the float loop of [builtin_sum]. *)
Definition sum `{Platform} (xs : list float) : float :=
  match xs with
  | [] => zero
  | x :: rest =>
      let first := add zero x in
      if compensated_sum then
        let '(f_result, c) := fold_left neumaier_step rest (first, zero) in
        if negb (eqb c zero) && is_finite c then add f_result c else f_result
      else fold_left add rest first
  end.

(** [math.sqrt(sum(x ** 2 for x in v))], the expression of both
    magnitude lines; the generator stops at the first square that
    raises. *)
Definition magnitude `{Platform} (v : list float) : result float :=
  squares ← mapM float_pow2 v;
  math_sqrt (sum squares).

Definition calculate_similarity `{Platform} (user_vec poi_vec : list float)
    : result float :=
  match user_vec, poi_vec with
  | [], _ | _, [] => Returned zero
  | _, _ =>
      let min_len := Nat.min (length user_vec) (length poi_vec) in
      let user_vec := take min_len user_vec in
      let poi_vec := take min_len poi_vec in
      let dot_product := sum (zip_with mul user_vec poi_vec) in
      user_magnitude ← magnitude user_vec;
      poi_magnitude ← magnitude poi_vec;
      if eqb user_magnitude zero || eqb poi_magnitude zero then Returned zero
      else
        similarity ← float_div dot_product (mul user_magnitude poi_magnitude);
        Returned (max zero (min one similarity))
  end.

(** The argument [-distance_meters / 1000.0] the decay hands to
    [math.exp]: the negated distance divided by the double 1000. *)
Definition decay_argument (distance_meters : float) : float :=
  div (opp distance_meters) (of_Z 1000).

Definition _calculate_distance_decay `{Platform} (distance_meters : option float)
    : result float :=
  match distance_meters with
  | None => Returned one
  | Some d =>
      if eqb d zero then Returned one
      else if ltb d zero then Returned one
      else
        decay ← math_exp (decay_argument d);
        Returned (max zero decay)
  end.

End Binary64.

(** [recommendations.models.Review], one per [(user, poi)]. The table is
    handed to the functions that read it. *)
Record Review := {
  r_user : uuid;
  r_poi : uuid;
  r_rating : R;
  r_created_at : datetime
}.

(** ** [recommendations/trend_analyzer.py] *)

Module TrendAnalyzer.

Record t := {
  UNDERRATED_THRESHOLD : Z;
  HIGH_RATING_FLOOR : R;
  CACHE_TTL : Z
}.

Definition __init__ (underrated_threshold : Z) (high_rating_floor : R)
    (cache_ttl : Z) : t :=
  {| UNDERRATED_THRESHOLD := underrated_threshold;
     HIGH_RATING_FLOOR := high_rating_floor;
     CACHE_TTL := cache_ttl |}.

(** [TrendAnalyzer()] with the default arguments. *)
Definition default_analyzer : t := __init__ 50 4.5 3600.

Inductive log_line : Type :=
| POI_not_found (poi_id : uuid)
| POI_blacklisted_until (name : string) (expires_at : datetime)
| Cleaned_up (expired_count : Z)
| Analyzed (poi_count : Z).

(** Table writes, one field replaced. *)
Definition set_trending_lists (db : DB) (m : gmap string TrendingList) : DB :=
  {| pois := pois db; profiles := profiles db; interactions := interactions db;
     trending_lists := m;
     blacklist_entries := blacklist_entries db;
     seasonal_metadata := seasonal_metadata db |}.

Definition set_blacklist_entries (db : DB) (m : gmap uuid BlacklistedPOI) : DB :=
  {| pois := pois db; profiles := profiles db; interactions := interactions db;
     trending_lists := trending_lists db;
     blacklist_entries := m;
     seasonal_metadata := seasonal_metadata db |}.

Definition set_seasonal_metadata (db : DB) (m : gmap uuid SeasonalMetadata) : DB :=
  {| pois := pois db; profiles := profiles db; interactions := interactions db;
     trending_lists := trending_lists db;
     blacklist_entries := blacklist_entries db;
     seasonal_metadata := m |}.

(** The bounding box as [(nE, sW)], each corner [(lat, lon)]. *)
Definition bounds_of `{GIS} (geohash : string) : (R * R) * (R * R) :=
  let '(lat, lon, lat_err, lon_err) := decode_exactly geohash in
  ((lat + lat_err, lon + lon_err), (lat - lat_err, lon - lon_err))%R.

(** [_get_bbox_polygon]: the five corners of the WKT ring, each
    [(lon, lat)]. *)
Definition _get_bbox_polygon (bounds : (R * R) * (R * R)) : list (R * R) :=
  let ne := bounds.1 in
  let sw := bounds.2 in
  [ (sw.2, sw.1); (ne.2, sw.1); (ne.2, ne.1); (sw.2, ne.1); (sw.2, sw.1) ].

(** [location__within=polygon] for such a ring: the point lies in the
    interior of the rectangle spanned by its first and third corner. *)
Definition location_within (polygon : list (R * R)) (p : Point) : Prop :=
  match polygon with
  | sw :: _ :: ne :: _ =>
      (sw.1 < x p ∧ x p < ne.1 ∧ sw.2 < y p ∧ y p < ne.2)%R
  | _ => False
  end.

#[global] Instance location_within_dec polygon p : Decision (location_within polygon p).
Proof.
  unfold location_within.
  destruct polygon as [|? [|? [|? ?]]]; apply _.
Defined.

Section Trending.
Context `{GIS}.

(** Rows of [interactions] joined to [poi] by the trending query. *)
Definition recent_of (db : DB) (last_24h : datetime) (poi : POI) : list Interaction :=
  filter (λ i, i_poi i = poi_id poi ∧ (last_24h ≤ timestamp i)%Z) (interactions db).

(** The query of step 3, evaluated: POIs in the box with at least one
    interaction since [last_24h], each with the number of such
    interactions, ordered by that number, first 20. *)
Definition trending_query (db : DB) (now : datetime) (geohash : string)
    : list (POI * Z) :=
  let bounds := bounds_of geohash in
  let last_24h := (now - timedelta_hours 24)%Z in
  let rows :=
    filter (λ poi, location_within (_get_bbox_polygon bounds) (location poi)
                   ∧ recent_of db last_24h poi ≠ [])
      (pois db) in
  let annotated :=
    map (λ poi, (poi, Z.of_nat (length (recent_of db last_24h poi)))) rows in
  take 20 (sort_desc_int snd annotated).

(** [TrendingList.objects.update_or_create(geohash=..., defaults=...)] *)
Definition upsert_trending (db : DB) (now : datetime) (geohash : string)
    (poi_ids : list uuid) : DB :=
  let row :=
    match trending_lists db !! geohash with
    | Some old =>
        {| tl_pois := poi_ids; tl_created_at := tl_created_at old;
           tl_updated_at := now |}
    | None =>
        {| tl_pois := poi_ids; tl_created_at := now; tl_updated_at := now |}
    end in
  set_trending_lists db (<[geohash := row]> (trending_lists db)).

Definition recompute_trending (db : DB) (now : datetime) (geohash : string)
    : DB * list POI :=
  let trending_pois := trending_query db now geohash in
  let poi_ids := map (λ r, poi_id r.1) trending_pois in
  (upsert_trending db now geohash poi_ids, map fst trending_pois).

Definition get_trending_now (self : t) (db : DB) (now : datetime)
    (geohash : string) : DB * list POI :=
  match trending_lists db !! geohash with
  | Some cached_trending =>
      if decide (now - tl_updated_at cached_trending < CACHE_TTL self)%Z
      then (db, filter (λ poi, poi_id poi ∈ tl_pois cached_trending) (pois db))
      else recompute_trending db now geohash
  | None => recompute_trending db now geohash
  end.
End Trending.

Section Seasonal.
Context `{Calendar}.

Definition season_of (m : Z) : Season :=
  if decide (m ∈ [3; 4; 5]%Z) then SPRING
  else if decide (m ∈ [6; 7; 8]%Z) then SUMMER
  else if decide (m ∈ [9; 10; 11]%Z) then FALL
  else WINTER.

(** The dict [season_counts]: its keys in insertion order, and its
    values. *)
Definition season_keys : list Season := [SPRING; SUMMER; FALL; WINTER].

Definition season_counts_init : Season → Z := λ _, 0%Z.

Definition increment (season_counts : Season → Z) (season : Season) : Season → Z :=
  λ s, if decide (s = season) then (season_counts s + 1)%Z else season_counts s.

Definition count_by_season (interactions : list Interaction) : Season → Z :=
  fold_left
    (λ season_counts interaction,
       increment season_counts (season_of (month (timestamp interaction))))
    interactions season_counts_init.

(** [max(season_counts, key=season_counts.get)] *)
Definition peak_of (season_counts : Season → Z) : Season :=
  match season_keys with
  | [] => SPRING
  | k :: ks => max_by season_counts k ks
  end.

(** The row written by [update_or_create]: the [defaults] of the call,
    stamped by [auto_now]. *)
Definition seasonal_row (now : datetime) (interactions : list Interaction)
    : SeasonalMetadata :=
  let season_counts := count_by_season interactions in
  let peak_season := peak_of season_counts in
  {| peak_season := peak_season;
     visit_count_spring := season_counts SPRING;
     visit_count_summer := season_counts SUMMER;
     visit_count_fall := season_counts FALL;
     visit_count_winter := season_counts WINTER;
     last_analyzed_at := now |}.

(** [Interaction.objects.filter(poi=poi)] *)
Definition interactions_of (db : DB) (id : uuid) : list Interaction :=
  filter (λ i, i_poi i = id) (interactions db).

(** One turn of the loop over all POIs. *)
Definition analyze_poi (now : datetime) (db : DB) (poi : POI) : DB :=
  match interactions_of db (poi_id poi) with
  | [] => db
  | interactions =>
      set_seasonal_metadata db
        (<[poi_id poi := seasonal_row now interactions]> (seasonal_metadata db))
  end.

Definition analyze_seasonal_trends (db : DB) (now : datetime)
    : DB * list log_line :=
  let all_pois := pois db in
  (fold_left (analyze_poi now) all_pois db,
   [Analyzed (Z.of_nat (length all_pois))]).
End Seasonal.

(** [POI.objects.get] raises [ValidationError] on a malformed id and
    [DoesNotExist], which is caught, on an unknown one; the expiry is
    computed only once the POI is found. *)
Definition blacklist_place (db : DB) (now : datetime) (poi_id0 : id_value)
    (reason0 : string) (duration_hours : hours_value)
    : result (DB * list log_line) :=
  match poi_id0 with
  | Malformed_id => Raised ValidationError
  | Uuid id =>
      match list_find (λ p, poi_id p = id) (pois db) with
      | None => Returned (db, [POI_not_found id])
      | Some (_, poi) =>
          match duration_hours with
          | Not_a_number => Raised TypeError
          | Hours h =>
              expires_at0 ← add_hours now h;
              let row :=
                match blacklist_entries db !! poi_id poi with
                | Some old =>
                    {| reason := reason0; bl_created_at := bl_created_at old;
                       expires_at := expires_at0 |}
                | None =>
                    {| reason := reason0; bl_created_at := now;
                       expires_at := expires_at0 |}
                end in
              Returned
                (set_blacklist_entries db
                   (<[poi_id poi := row]> (blacklist_entries db)),
                 [POI_blacklisted_until (name poi) expires_at0])
          end
      end
  end.

Definition cleanup_expired_blacklist (db : DB) (now : datetime)
    : DB * Z * list log_line :=
  let expired := filter (λ kv, (expires_at kv.2 ≤ now)%Z) (blacklist_entries db) in
  let expired_count := Z.of_nat (size expired) in
  (set_blacklist_entries db
     (filter (λ kv, ¬ (expires_at kv.2 ≤ now)%Z) (blacklist_entries db)),
   expired_count, [Cleaned_up expired_count]).

Section Reviews.
Context `{GIS}.

(** [Count('reviews')] for one POI. *)
Definition review_count (reviews : list Review) (poi : POI) : Z :=
  Z.of_nat (length (filter (λ r, r_poi r = poi_id poi) reviews)).

Definition get_underrated_places (self : t) (db : DB) (reviews : list Review)
    (geohash : string) : list POI :=
  let bounds := bounds_of geohash in
  let underrated_pois :=
    filter (λ poi, (HIGH_RATING_FLOOR self <= average_rating poi)%R
                   ∧ (review_count reviews poi < UNDERRATED_THRESHOLD self)%Z
                   ∧ location_within (_get_bbox_polygon bounds) (location poi))
      (pois db) in
  sort_desc_float average_rating underrated_pois.
End Reviews.

Definition get_negative_feedback_count (reviews : list Review) (now : datetime)
    (poi_id0 : uuid) (hours : Z) : Z :=
  let since := (now - timedelta_hours hours)%Z in
  Z.of_nat
    (length
       (filter (λ r, r_poi r = poi_id0 ∧ (r_rating r < 3)%R
                     ∧ (since ≤ r_created_at r)%Z)
          reviews)).

End TrendAnalyzer.

(** ** [recommendations/views.py] *)

Module Views.

Inductive body : Type :=
| Error (message : string)
| Error_fields (fields : list string)
| Error_user_not_found (user_id : uuid)
| Error_raised (e : exn)
| Recommendations (recommendations : list ScoredPOI)
| Message_blacklisted (poi_id : id_value).

Record Response := {
  data : body;
  status : Z
}.

(** The JSON objects of a request body; a key that is absent is [None]. *)
Record PointData := {
  pd_latitude : option R;
  pd_longitude : option R
}.

Record ContextData := {
  cd_user_location : option PointData;
  cd_time_of_day : option string;
  cd_is_open_only : option bool;
  cd_radius_meters : option R;
  cd_max_results : option Z
}.

(** [PointDTOSerializer]: both fields required and bounded. *)
Definition point_errors (p : PointData) : list string :=
  match pd_latitude p with
  | Some lat => if decide (-90 <= lat ∧ lat <= 90)%R then [] else ["latitude"]
  | None => ["latitude"]
  end
  ++ match pd_longitude p with
     | Some lon => if decide (-180 <= lon ∧ lon <= 180)%R then [] else ["longitude"]
     | None => ["longitude"]
     end.

(** [ContextDTOSerializer.errors]: the names of the fields that fail, in
    the order the serializer declares them. [time_of_day] takes any
    string. *)
Definition context_errors (c : ContextData) : list string :=
  match cd_user_location c with
  | Some p => match point_errors p with [] => [] | _ => ["user_location"] end
  | None => ["user_location"]
  end
  ++ match cd_radius_meters c with
     | Some r => if decide (100 <= r)%R then [] else ["radius_meters"]
     | None => []
     end
  ++ match cd_max_results c with
     | Some n => if decide (1 ≤ n ∧ n ≤ 100)%Z then [] else ["max_results"]
     | None => []
     end.

(** The [ContextDTO] the view builds from [validated_data], with the
    serializer's defaults filled in. *)
Definition to_context (c : ContextData) : option ContextDTO :=
  p ← cd_user_location c;
  lat ← pd_latitude p;
  lon ← pd_longitude p;
  Some {| user_location := {| latitude := lat; longitude := lon |};
          is_open_only := default true (cd_is_open_only c);
          radius_meters := default 5000%R (cd_radius_meters c);
          max_results := default 10%Z (cd_max_results c) |}.

(** [not context_data]: the key is absent or holds an empty object. *)
Definition context_missing (context_data : option ContextData) : bool :=
  match context_data with
  | None => true
  | Some {| cd_user_location := None; cd_time_of_day := None;
            cd_is_open_only := None; cd_radius_meters := None;
            cd_max_results := None |} => true
  | Some _ => false
  end.

(** [GenerateRecommendationsView.post]. [user_id] is [None] when the
    key is absent or its value is falsy. The user lookup stands outside
    the view's [try]: a malformed id raises [ValidationError] out of the
    view. *)
Definition generate_post `{GIS} (db : DB) (user_id : option id_value)
    (context_data : option ContextData) : result Response :=
  match user_id with
  | None => Returned {| data := Error "user_id is required"; status := 400 |}
  | Some user_id =>
      if context_missing context_data
      then Returned {| data := Error "context is required"; status := 400 |}
      else
        let c := default {| cd_user_location := None; cd_time_of_day := None;
                            cd_is_open_only := None; cd_radius_meters := None;
                            cd_max_results := None |} context_data in
        match context_errors c, to_context c with
        | [], Some context =>
            match user_id with
            | Malformed_id => Raised ValidationError
            | Uuid id =>
                match ScoringService.objects_get db id with
                | Raised DoesNotExist =>
                    Returned {| data := Error_user_not_found id; status := 404 |}
                | Raised e => Raised e
                | Returned user =>
                    Returned
                      {| data :=
                           Recommendations
                             (ScoringService.generate_recommendations
                                ScoringService.default_service db user context);
                         status := 200 |}
                end
            end
        | errors, _ => Returned {| data := Error_fields errors; status := 400 |}
        end
  end.

(** [BlacklistPOIView.post]. [poi_id] is [None] when the key is absent
    or its value is falsy, otherwise what [str(poi_id)] reads as; a key
    that is absent takes its default. Whatever [blacklist_place] raises
    is answered with 500. *)
Definition blacklist_post (db : DB) (now : datetime) (poi_id : option id_value)
    (reason : option string) (duration_hours : option hours_value)
    : DB * Response :=
  let reason := default "Negative feedback spike" reason in
  let duration_hours := default (Hours 24) duration_hours in
  match poi_id with
  | None => (db, {| data := Error "poi_id is required"; status := 400 |})
  | Some poi_id =>
      match TrendAnalyzer.blacklist_place db now poi_id reason duration_hours with
      | Returned (db, _) =>
          (db, {| data := Message_blacklisted poi_id; status := 200 |})
      | Raised e => (db, {| data := Error_raised e; status := 500 |})
      end
  end.

End Views.

(** ** [user/models.py]: following *)

Module Follow.

(** The two counters of a [UserProfile] row. *)
Record counts := {
  followers_count : Z;
  following_count : Z
}.

(** The profile rows by primary key and the [FollowRelation] rows
    [(follower, following)], unique together. *)
Record State := {
  rows : gmap uuid counts;
  relations : gset (uuid * uuid)
}.

Definition is_following (st : State) (self target : uuid) : bool :=
  bool_decide ((self, target) ∈ relations st).

(** [F('following_count') + d] and [F('followers_count') + d], saved. *)
Definition add_following (d : Z) (c : counts) : counts :=
  {| followers_count := followers_count c;
     following_count := (following_count c + d)%Z |}.

Definition add_followers (d : Z) (c : counts) : counts :=
  {| followers_count := (followers_count c + d)%Z;
     following_count := following_count c |}.

Definition follow (st : State) (self target : uuid) : State :=
  if bool_decide (self ≠ target) && negb (is_following st self target)
  then {| rows := alter (add_followers 1) target
                    (alter (add_following 1) self (rows st));
          relations := {[ (self, target) ]} ∪ relations st |}
  else st.

Definition unfollow (st : State) (self target : uuid) : State :=
  if bool_decide (self ≠ target) && is_following st self target
  then {| rows := alter (add_followers (-1)) target
                    (alter (add_following (-1)) self (rows st));
          relations := relations st ∖ {[ (self, target) ]} |}
  else st.

(** The counters agree with the relation rows: every profile row counts
    the relations it follows and the relations that follow it. *)
Definition counts_consistent (st : State) : Prop :=
  ∀ u c, rows st !! u = Some c →
    following_count c = Z.of_nat (size (filter (λ r, r.1 = u) (relations st)))
    ∧ followers_count c = Z.of_nat (size (filter (λ r, r.2 = u) (relations st))).

End Follow.

(** ** The similarity the specification describes

    Its part 4.1 reads: cosine similarity of two sparse
    tag-weight mappings over the union of their tags, a missing tag
    counting as weight 0, clamped to the unit interval; 0 when either
    mapping has zero magnitude. Kept apart from the code above, to be
    compared with it. *)

Module Spec.

Definition weight_of (v : gmap string R) (tag : string) : R :=
  default 0%R (v !! tag).

Definition union_tags (a b : gmap string R) : list string :=
  elements (dom a ∪ dom b).

Definition dot (a b : gmap string R) : R :=
  sum (map (λ tag, weight_of a tag * weight_of b tag)%R (union_tags a b)).

Definition magnitude (a b : gmap string R) : R :=
  sqrt (sum (map (λ tag, weight_of a tag ^ 2)%R (union_tags a b))).

Definition sparse_similarity (a b : gmap string R) : R :=
  if decide (magnitude a b = 0%R) then 0%R
  else if decide (magnitude b a = 0%R) then 0%R
  else Rmax 0 (Rmin 1 (dot a b / (magnitude a b * magnitude b a))).

(** A POI's tag list as a mapping: every listed tag with the same weight. *)
Definition poi_tag_weights (tags : list string) : gmap string R :=
  list_to_map (map (λ tag, (tag, (1 / INR (length tags))%R)) tags).

End Spec.

(** A list of values laid out by position in a vector of
    [vector_dimension] entries: the first 100 values, then zeros. *)
Definition positional (values : list R) : list R :=
  take ScoringService.vector_dimension values
  ++ replicate (ScoringService.vector_dimension - length values) 0%R.

(** Position of a season in the order of the keys of [season_counts]. *)
Definition season_rank (s : Season) : nat :=
  match s with SPRING => 0 | SUMMER => 1 | FALL => 2 | WINTER => 3 end.

(** A stored record's counter for a season. *)
Definition visit_count (md : SeasonalMetadata) (s : Season) : Z :=
  match s with
  | SPRING => visit_count_spring md
  | SUMMER => visit_count_summer md
  | FALL => visit_count_fall md
  | WINTER => visit_count_winter md
  end.

(** The calendar months of a season. *)
Definition months_of (s : Season) : list Z :=
  match s with
  | SPRING => [3; 4; 5]
  | SUMMER => [6; 7; 8]
  | FALL => [9; 10; 11]
  | WINTER => [12; 1; 2]
  end%Z.

(** The four scores of a result row lie in the unit interval. *)
Definition scores_in_unit (s : ScoredPOI) : Prop :=
  (0 <= similarity_score s <= 1 ∧ 0 <= rating_score s <= 1
   ∧ 0 <= distance_score s <= 1 ∧ 0 <= final_score s <= 1)%R.

(** ** Sample data *)

Module Sample.

(** A flat-earth backend: taxicab distance at 111320 m per degree, and a
    geohash decoder that answers the whole globe. *)
Definition flat_gis : GIS :=
  {| DistanceFunc p q :=
       (111320 * (Rabs (x p - x q) + Rabs (y p - y q)))%R;
     decode_exactly _ := (0, 0, 90, 180)%R;
     is_open _ := true |}.

Definition origin : Point := {| x := 0; y := 0 |}.

Definition poi_at_origin (id : uuid) (tags : list string) : POI :=
  {| poi_id := id; name := "place"; location := origin; category := "NATURE";
     average_rating := 4; tags := tags |}.

Definition here : ContextDTO :=
  {| user_location := {| latitude := 0; longitude := 0 |};
     is_open_only := true; radius_meters := 5000; max_results := 10 |}.

(** A platform to run the examples on: squares rounded correctly (2 is
    the only exponent the code uses), [exp] as the 2^20-th power of
    [1 + x / 2^20], and the naive [sum]. *)
Definition platform : Binary64.Platform :=
  {| Binary64.libm_pow x y :=
       if Binary64.eqb y (Binary64.of_Z 2) then Binary64.mul x x
       else SpecFloat.S754_nan;
     Binary64.libm_exp x :=
       match x with
       | SpecFloat.S754_nan => x
       | SpecFloat.S754_infinity s => if s then Binary64.zero else x
       | SpecFloat.S754_zero _ => Binary64.one
       | SpecFloat.S754_finite _ _ _ =>
           Nat.iter 20 (λ z, Binary64.mul z z)
             (Binary64.add Binary64.one
                (Binary64.div x (Binary64.of_Z 1048576)))
       end;
     Binary64.compensated_sum := false |}.

Definition empty_db : DB :=
  {| pois := []; profiles := ∅; interactions := [];
     trending_lists := ∅; blacklist_entries := ∅; seasonal_metadata := ∅ |}.

Definition new_user : UserProfile :=
  {| user_id := 7%N; preferences_vector := ∅ |}.

Definition nature_lover : UserProfile :=
  {| user_id := 7%N; preferences_vector := {[ "nature" := 1%R ]} |}.

(** One user with an empty vector who liked a POI tagged ["x"]. *)
Definition liked_x : DB :=
  {| pois := [poi_at_origin 1%N ["x"]];
     profiles := {[ 7%N := new_user ]};
     interactions :=
       [ {| i_user := 7%N; i_poi := 1%N; interaction_type := LIKE; timestamp := 0 |} ];
     trending_lists := ∅; blacklist_entries := ∅; seasonal_metadata := ∅ |}.

(** POI 1 carries a blacklist row that ran out at second 100. *)
Definition stale_blacklist : DB :=
  {| pois := [poi_at_origin 1%N ["nature"]];
     profiles := {[ 7%N := nature_lover ]};
     interactions := [];
     trending_lists := ∅;
     blacklist_entries :=
       {[ 1%N := {| reason := "Negative feedback spike";
                    bl_created_at := 0; expires_at := 100 |} ]};
     seasonal_metadata := ∅ |}.

(** Three POIs that differ in their id only, stored as 2, 1, 3. *)
Definition three_alike : DB :=
  {| pois := [poi_at_origin 2%N ["nature"]; poi_at_origin 1%N ["nature"];
              poi_at_origin 3%N ["nature"]];
     profiles := {[ 7%N := nature_lover ]};
     interactions := [];
     trending_lists := ∅; blacklist_entries := ∅; seasonal_metadata := ∅ |}.

(** POI 1 is stored before POI 2; POI 2 has two interactions in the last
    day, POI 1 has one. *)
Definition busy_day : DB :=
  {| pois := [poi_at_origin 1%N ["nature"]; poi_at_origin 2%N ["food"]];
     profiles := {[ 7%N := nature_lover ]};
     interactions :=
       [ {| i_user := 7%N; i_poi := 2%N; interaction_type := VIEW; timestamp := 99000 |};
         {| i_user := 7%N; i_poi := 1%N; interaction_type := VIEW; timestamp := 99100 |};
         {| i_user := 7%N; i_poi := 2%N; interaction_type := CLICK; timestamp := 99200 |} ];
     trending_lists := ∅; blacklist_entries := ∅; seasonal_metadata := ∅ |}.

End Sample.

(** * Properties *)

(** ** Sums and magnitudes *)

Section Sums.
Local Open Scope R_scope.

Lemma fold_left_Rplus_acc (xs : list R) (a : R) :
  fold_left Rplus xs a = a + sum xs.
Proof.
  unfold sum. revert a.
  induction xs as [|x xs IH]; intros a; simpl.
  - lra.
  - rewrite (IH (a + x)), (IH (0 + x)). lra.
Qed.

Lemma sum_nil : sum [] = 0.
Proof. reflexivity. Qed.

Lemma sum_cons (x : R) (xs : list R) : sum (x :: xs) = x + sum xs.
Proof.
  unfold sum at 1. simpl. rewrite fold_left_Rplus_acc. lra.
Qed.

Lemma sum_squares_nonneg (xs : list R) : 0 <= sum (map (λ u, u ^ 2) xs).
Proof.
  induction xs as [|x xs IH]; cbn [map].
  - rewrite sum_nil. lra.
  - rewrite sum_cons. pose proof (pow2_ge_0 x). lra.
Qed.

Lemma sum_squares_zero (xs : list R) :
  Forall (λ u, u = 0) xs → sum (map (λ u, u ^ 2) xs) = 0.
Proof.
  induction 1 as [|x xs Hx _ IH]; cbn [map].
  - apply sum_nil.
  - rewrite sum_cons, IH, Hx. lra.
Qed.

Lemma zip_with_Rmult_comm (xs ys : list R) :
  zip_with Rmult xs ys = zip_with Rmult ys xs.
Proof.
  revert ys. induction xs as [|x xs IH]; intros [|y ys]; simpl; try reflexivity.
  rewrite IH. f_equal. lra.
Qed.

Lemma clamp_bounds (s : R) : 0 <= Rmax 0 (Rmin 1 s) <= 1.
Proof.
  split.
  - apply Rmax_l.
  - apply Rmax_lub; [lra | apply Rmin_l].
Qed.
End Sums.

(** ** [calculate_similarity] *)

Section Similarity.
Import ScoringService.
Local Open Scope R_scope.

Lemma calculate_similarity_bounds (a b : list R) :
  0 <= calculate_similarity a b <= 1.
Proof.
  unfold calculate_similarity.
  destruct a as [|u a]; [lra|].
  destruct b as [|p b]; [lra|].
  repeat case_decide; try lra.
  apply clamp_bounds.
Qed.

Lemma calculate_similarity_sym (a b : list R) :
  calculate_similarity a b = calculate_similarity b a.
Proof.
  unfold calculate_similarity.
  destruct a as [|u a]; destruct b as [|p b]; try reflexivity.
  rewrite (Nat.min_comm (length (p :: b))).
  rewrite (zip_with_Rmult_comm (take _ (p :: b))).
  rewrite (Rmult_comm (sqrt (sum (map _ (take _ (p :: b)))))).
  repeat case_decide; reflexivity.
Qed.

Lemma calculate_similarity_zero_l (a b : list R) :
  Forall (λ u, u = 0) a → calculate_similarity a b = 0.
Proof.
  intros Ha. unfold calculate_similarity.
  destruct a as [|u a]; [reflexivity|].
  destruct b as [|p b]; [reflexivity|].
  rewrite sum_squares_zero by (apply Forall_take; exact Ha).
  rewrite sqrt_0. case_decide; [reflexivity | congruence].
Qed.

End Similarity.

(** ** [_calculate_distance_decay] *)

Section Decay.
Import ScoringService.
Local Open Scope R_scope.

Lemma decay_positive (d : R) :
  0 < d → _calculate_distance_decay (Some d) = exp (- d / 1000).
Proof.
  intros Hd. unfold _calculate_distance_decay.
  repeat case_decide; try lra.
  apply Rmax_right. left. apply exp_pos.
Qed.

Lemma decay_nonpositive (d : R) :
  d <= 0 → _calculate_distance_decay (Some d) = 1.
Proof.
  intros Hd. unfold _calculate_distance_decay.
  repeat case_decide; try lra.
Qed.

Lemma decay_bounds (distance : option R) :
  0 < _calculate_distance_decay distance <= 1.
Proof.
  destruct distance as [d|]; [|simpl; lra].
  destruct (Rle_or_lt d 0) as [Hd|Hd].
  - rewrite decay_nonpositive by exact Hd. lra.
  - rewrite decay_positive by exact Hd. split; [apply exp_pos|].
    rewrite <- exp_0. left. apply exp_increasing. lra.
Qed.
End Decay.

(** ** [calculate_similarity] and [_calculate_distance_decay] on doubles *)

Section Doubles.
Import SpecFloat Binary64.
Context `{Platform}.

Lemma mul64_comm (x y : float) : mul x y = mul y x.
Proof.
  unfold mul, SFmul.
  destruct x as [sx|sx| |sx mx ex], y as [sy|sy| |sy my ey];
    rewrite ?(xorb_comm sx sy); try reflexivity.
  by rewrite Pos.mul_comm, Z.add_comm.
Qed.

Lemma zip_with_mul64_comm (a b : list float) :
  zip_with mul a b = zip_with mul b a.
Proof.
  revert b. induction a as [|x a IH]; intros [|y b]; cbn; try reflexivity.
  by rewrite IH, mul64_comm.
Qed.

Lemma ltb_leb (x y : float) : ltb x y = true → leb x y = true.
Proof.
  unfold ltb, leb, SFltb, SFleb. by destruct (SFcompare x y) as [[]|].
Qed.

Lemma ltb_zero_positive (d : float) :
  ltb zero d = true → eqb d zero = false ∧ ltb d zero = false.
Proof. by destruct d as [s|[]| |[] m e]. Qed.

Lemma clamp_range (s : float) :
  leb zero (max zero (min one s)) = true ∧ leb (max zero (min one s)) one = true.
Proof.
  unfold max, min. destruct (ltb s one) eqn:H1.
  - destruct (ltb zero s) eqn:H2; [by split; apply ltb_leb|done].
  - done.
Qed.

Lemma max_zero_nonneg (x : float) : leb zero (max zero x) = true.
Proof.
  unfold max. destruct (ltb zero x) eqn:Hx; [by apply ltb_leb|done].
Qed.

Lemma float_pow2_zero (x : float) : is_zero x → float_pow2 x = Returned zero.
Proof. by destruct x. Qed.

Lemma mapM_pow2_zeros (v : list float) :
  Forall is_zero v → mapM float_pow2 v = Returned (replicate (length v) zero).
Proof.
  induction 1 as [|x v Hx _ IH]; [done|].
  cbn [mapM length replicate]. rewrite float_pow2_zero by done.
  cbn. by rewrite IH.
Qed.

Lemma fold_add_zeros (n : nat) : fold_left add (replicate n zero) zero = zero.
Proof. induction n as [|n IH]; [done|exact IH]. Qed.

Lemma fold_neumaier_zeros (n : nat) :
  fold_left neumaier_step (replicate n zero) (zero, zero) = (zero, zero).
Proof. induction n as [|n IH]; [done|exact IH]. Qed.

Lemma sum64_zeros (n : nat) : sum (replicate n zero) = zero.
Proof.
  destruct n as [|n]; [done|]. unfold sum. cbn [replicate].
  change (add zero zero) with zero.
  destruct compensated_sum.
  - by rewrite fold_neumaier_zeros.
  - apply fold_add_zeros.
Qed.

Lemma magnitude_zeros (v : list float) :
  Forall is_zero v → magnitude v = Returned zero.
Proof.
  intros Hv. unfold magnitude. rewrite mapM_pow2_zeros by done.
  cbn. by rewrite sum64_zeros.
Qed.

Lemma fold_add_one_zeros (n : nat) : fold_left add (replicate n zero) one = one.
Proof. induction n as [|n IH]; [done|exact IH]. Qed.

Lemma fold_neumaier_one_zeros (n : nat) :
  fold_left neumaier_step (replicate n zero) (one, zero) = (one, zero).
Proof. induction n as [|n IH]; [done|exact IH]. Qed.

Lemma sum64_one_zeros (n : nat) : sum (one :: replicate n zero) = one.
Proof.
  unfold sum. change (add zero one) with one.
  destruct compensated_sum.
  - by rewrite fold_neumaier_one_zeros.
  - apply fold_add_one_zeros.
Qed.

Lemma zip_with_mul_zeros (n : nat) :
  zip_with mul (replicate n zero) (replicate n zero) = replicate n zero.
Proof. induction n as [|n IH]; [done|]. cbn [replicate zip_with]. by rewrite IH. Qed.

Lemma calculate_similarity64_first_axis (n : nat) :
  calculate_similarity (one :: replicate n zero) (one :: replicate n zero)
  = Returned one.
Proof.
  unfold calculate_similarity. rewrite Nat.min_id, firstn_all.
  assert (magnitude (one :: replicate n zero) = Returned one) as ->.
  { unfold magnitude. cbn [mapM].
    change (float_pow2 one) with (Returned one). cbn [mbind result_bind].
    rewrite mapM_pow2_zeros by (by apply Forall_replicate).
    cbn [mbind result_bind mret result_ret]. rewrite length_replicate.
    by rewrite sum64_one_zeros. }
  cbn [mbind result_bind zip_with]. rewrite zip_with_mul_zeros.
  change (mul one one) with one. by rewrite sum64_one_zeros.
Qed.

Lemma take_min_length {A} (n : nat) (l : list A) :
  take (Nat.min n (length l)) l = take n l.
Proof. by rewrite <- take_take, firstn_all. Qed.

Lemma calculate_similarity64_sym (a b : list float) :
  returned (calculate_similarity a b) = returned (calculate_similarity b a).
Proof.
  unfold calculate_similarity.
  destruct a as [|u a], b as [|p b]; try reflexivity.
  rewrite (Nat.min_comm (length (p :: b))).
  set (n := Nat.min _ _).
  rewrite (zip_with_mul64_comm (take n (p :: b))).
  destruct (magnitude (take n (u :: a))) as [um|e],
           (magnitude (take n (p :: b))) as [pm|e']; cbn; try reflexivity.
  rewrite (orb_comm (eqb pm zero)), (mul64_comm pm). reflexivity.
Qed.

Lemma calculate_similarity64_zero_l (a b : list float) :
  a ≠ [] → b ≠ [] → Forall is_zero a →
  calculate_similarity a b
  = (_ ← magnitude (take (length a) b); Returned zero).
Proof.
  intros Ha Hb Hz. unfold calculate_similarity.
  destruct a as [|u a]; [done|]. destruct b as [|p b]; [done|].
  rewrite (magnitude_zeros (take _ (u :: a))) by (by apply Forall_take).
  rewrite take_min_length.
  by destruct (magnitude (take (length (u :: a)) (p :: b))).
Qed.

Lemma calculate_similarity64_zero_r (a b : list float) :
  a ≠ [] → b ≠ [] → Forall is_zero b →
  calculate_similarity a b
  = (_ ← magnitude (take (length b) a); Returned zero).
Proof.
  intros Ha Hb Hz. unfold calculate_similarity.
  destruct a as [|u a]; [done|]. destruct b as [|p b]; [done|].
  rewrite (magnitude_zeros (take _ (p :: b))) by (by apply Forall_take).
  rewrite Nat.min_comm, take_min_length.
  destruct (magnitude (take (length (p :: b)) (u :: a))) as [um|e]; [|done].
  cbn [mbind result_bind]. by rewrite orb_true_r.
Qed.

Lemma calculate_similarity64_range (a b : list float) (r : float) :
  calculate_similarity a b = Returned r →
  leb zero r = true ∧ leb r one = true.
Proof.
  unfold calculate_similarity.
  destruct a as [|u a]; [by intros [= <-]|].
  destruct b as [|p b]; [by intros [= <-]|].
  destruct (magnitude (take _ (u :: a))) as [um|e]; [|done].
  destruct (magnitude (take _ (p :: b))) as [pm|e]; [|done].
  cbn [mbind result_bind].
  destruct (_ || _); [by intros [= <-]|].
  destruct (float_div _ _) as [s|e]; [|done].
  intros [= <-]. apply clamp_range.
Qed.

Lemma decay_positive64 (d : float) :
  ltb zero d = true →
  _calculate_distance_decay (Some d)
  = (decay ← math_exp (decay_argument d); Returned (max zero decay)).
Proof.
  intros Hd. destruct (ltb_zero_positive d Hd) as [Heq Hlt].
  unfold _calculate_distance_decay. by rewrite Heq, Hlt.
Qed.

Lemma decay_nonpositive64 (d : float) :
  is_zero d ∨ ltb d zero = true →
  _calculate_distance_decay (Some d) = Returned one.
Proof.
  unfold _calculate_distance_decay. intros [Hd|Hd].
  - by destruct d.
  - rewrite Hd. by destruct (eqb d zero).
Qed.

Lemma decay_nonneg64 (d : option float) (r : float) :
  _calculate_distance_decay d = Returned r → leb zero r = true.
Proof.
  unfold _calculate_distance_decay.
  destruct d as [d|]; [|by intros [= <-]].
  destruct (eqb d zero); [by intros [= <-]|].
  destruct (ltb d zero); [by intros [= <-]|].
  destruct (math_exp _) as [x|e]; cbn; [|done].
  intros [= <-]. apply max_zero_nonneg.
Qed.
End Doubles.







(** ** The stable sort and the slice *)

Section SortFacts.
Context {A : Type} (lt : A → A → bool).

Lemma insert_perm (x : A) (l : list A) : Py.insert lt x l ≡ₚ x :: l.
Proof.
  induction l as [|y l IH]; simpl; [done|].
  destruct (lt y x); [|done].
  rewrite IH. apply Permutation_swap.
Qed.

Lemma sort_perm (l : list A) : Py.sort lt l ≡ₚ l.
Proof.
  induction l as [|x l IH]; simpl; [done|].
  unfold Py.sort in IH. rewrite insert_perm. by f_equiv.
Qed.

Lemma sort_length (l : list A) : length (Py.sort lt l) = length l.
Proof. apply Permutation_length, sort_perm. Qed.

Lemma elem_of_sort (x : A) (l : list A) : x ∈ Py.sort lt l ↔ x ∈ l.
Proof. by rewrite sort_perm. Qed.

(** An order [before] the comparison agrees with: what [lt] puts first is
    [before] the other, and what it does not may follow. *)
Context (before : A → A → Prop).
Hypothesis lt_sound : ∀ x y, lt y x = true → before y x.
Hypothesis lt_complete : ∀ x y, lt y x = false → before x y.
Hypothesis before_trans : ∀ x y z, before x y → before y z → before x z.

Lemma insert_sorted (x : A) (l : list A) :
  StronglySorted before l → StronglySorted before (Py.insert lt x l).
Proof.
  induction 1 as [|y l Hl IH Hy]; simpl.
  - repeat constructor.
  - destruct (lt y x) eqn:Hlt.
    + constructor; [exact IH|].
      apply Forall_forall. intros z Hz.
      rewrite insert_perm in Hz.
      apply elem_of_cons in Hz as [->|Hz]; [by apply lt_sound|].
      rewrite Forall_forall in Hy. by apply Hy.
    + constructor; [by constructor|].
      pose proof (lt_complete _ _ Hlt) as Hxy.
      constructor; [exact Hxy|].
      eapply Forall_impl; [exact Hy|]. intros z Hz. by eapply before_trans.
Qed.

Lemma sort_sorted (l : list A) : StronglySorted before (Py.sort lt l).
Proof.
  induction l as [|x l IH]; simpl; [constructor|].
  by apply insert_sorted.
Qed.
End SortFacts.

Section SortStable.
Context {A : Type} (lt : A → A → bool).
Context (P : A → Prop) `{!∀ x, Decision (P x)}.
Hypothesis separated : ∀ x y, lt y x = true → P x → P y → False.

Lemma filter_insert (x : A) (l : list A) :
  filter P (Py.insert lt x l) = filter P (x :: l).
Proof.
  induction l as [|y l IH]; [done|].
  cbn [Py.insert].
  destruct (lt y x) eqn:Hlt; [|done].
  rewrite (filter_cons P y), IH, !filter_cons.
  destruct (decide (P y)) as [Hy|Hy], (decide (P x)) as [Hx|Hx]; try done.
  destruct (separated _ _ Hlt Hx Hy).
Qed.

Lemma filter_sort (l : list A) : filter P (Py.sort lt l) = filter P l.
Proof.
  induction l as [|x l IH]; [done|].
  change (Py.sort lt (x :: l)) with (Py.insert lt x (Py.sort lt l)).
  by rewrite filter_insert, !filter_cons, IH.
Qed.
End SortStable.

Section SliceFacts.
Context {A : Type}.

Lemma slice_to_prefix (l : list A) (n : Z) : ∃ rest, l = slice_to l n ++ rest.
Proof.
  unfold slice_to. destruct (0 <=? n)%Z; eexists; symmetry; apply take_drop.
Qed.

Lemma slice_to_length (l : list A) (n : Z) :
  (0 ≤ n)%Z → (Z.of_nat (length (slice_to l n)) ≤ n)%Z.
Proof.
  intros Hn. unfold slice_to.
  destruct (0 <=? n)%Z eqn:E; [|lia].
  rewrite length_take. lia.
Qed.

Lemma elem_of_slice_to (x : A) (l : list A) (n : Z) : x ∈ slice_to l n → x ∈ l.
Proof.
  destruct (slice_to_prefix l n) as [rest Hl]. intros Hx.
  rewrite Hl. apply elem_of_app. by left.
Qed.
End SliceFacts.

(** ** [compute_score] and the result rows *)

Section Scores.
Import ScoringService.
Local Open Scope R_scope.

Lemma default_weights :
  WEIGHT_INTEREST default_service = 0.5
  ∧ WEIGHT_RATING default_service = 0.3
  ∧ WEIGHT_DISTANCE default_service = 0.2.
Proof. done. Qed.

Lemma compute_score_default_bounds (poi : POI) (user : UserProfile)
    (distance : option R) :
  0 <= average_rating poi <= 5 →
  let '(final, sim, dist, rating) := compute_score default_service poi user distance in
  0 <= sim <= 1 ∧ 0 <= rating <= 1 ∧ 0 <= dist <= 1 ∧ 0 <= final <= 1.
Proof.
  intros Hr. unfold compute_score.
  destruct default_weights as (-> & -> & ->).
  pose proof (calculate_similarity_bounds (_get_user_vector user) (_get_poi_vector poi)) as Hs.
  set (s := calculate_similarity _ _) in *.
  assert (0 <= (if decide (average_rating poi = 0) then 0 else average_rating poi / 5) <= 1) as Hrs.
  { case_decide; lra. }
  set (r := if decide (average_rating poi = 0) then 0 else _) in *.
  assert (0 <= match distance with
               | Some d => if decide (d = 0) then 1 else _calculate_distance_decay distance
               | None => 1
               end <= 1) as Hd.
  { destruct distance as [d|]; [|lra].
    case_decide; [lra|]. pose proof (decay_bounds (Some d)). lra. }
  set (d := match distance with Some _ => _ | None => _ end) in *.
  repeat split; lra.
Qed.

Lemma score_candidate_scores (self : t) (user : UserProfile) (pd : POI * R) :
  (final_score (score_candidate self user pd),
   similarity_score (score_candidate self user pd),
   distance_score (score_candidate self user pd),
   rating_score (score_candidate self user pd))
  = compute_score self pd.1 user (Some pd.2).
Proof.
  unfold score_candidate.
  by destruct (compute_score self pd.1 user (Some pd.2)) as [[[? ?] ?] ?].
Qed.

Lemma score_candidate_id (self : t) (user : UserProfile) (pd : POI * R) :
  s_poi_id (score_candidate self user pd) = poi_id pd.1.
Proof.
  unfold score_candidate.
  by destruct (compute_score self pd.1 user (Some pd.2)) as [[[? ?] ?] ?].
Qed.

Context `{GIS}.

Lemma elem_of_candidate_pois (db : DB) (context : ContextDTO) (pd : POI * R) :
  pd ∈ candidate_pois db context ↔
  pd.1 ∈ pois db
  ∧ pd.2 = DistanceFunc (location pd.1) (user_point context)
  ∧ pd.2 <= radius_meters context
  ∧ blacklist_entries db !! poi_id pd.1 = None.
Proof.
  unfold candidate_pois, is_open_in_meta_fields.
  rewrite andb_false_r. cbv zeta.
  rewrite !list_elem_of_filter, list_elem_of_In, in_map_iff.
  split.
  - intros (Hb & Hr & poi & <- & Hin). simpl in *.
    by rewrite list_elem_of_In.
  - intros (Hin & Hd & Hr & Hb). repeat split; [done..|].
    exists pd.1. split; [|by apply list_elem_of_In].
    destruct pd as [poi d]; simpl in *. by subst.
Qed.

Lemma elem_of_generate_recommendations (self : t) (db : DB)
    (user : UserProfile) (context : ContextDTO) (s : ScoredPOI) :
  s ∈ generate_recommendations self db user context →
  ∃ pd, pd ∈ candidate_pois db context ∧ s = score_candidate self user pd.
Proof.
  unfold generate_recommendations, sort_desc_float. intros Hs.
  apply elem_of_slice_to, elem_of_sort in Hs.
  apply list_elem_of_In, in_map_iff in Hs as (pd & <- & Hpd).
  exists pd. split; [by apply list_elem_of_In | done].
Qed.
End Scores.

(** C10. With the default weights, for a POI whose average rating lies in
    [0, 5], the similarity, rating and distance scores and the final
    score returned by [compute_score] lie in [0, 1]; hence every row
    returned by [generate_recommendations] over such POIs has its four
    scores in [0, 1]. *)
Theorem default_scores_in_unit_interval :
  (∀ user poi distance,
     (0 <= average_rating poi <= 5)%R →
     let '(final, sim, dist, rating) :=
       ScoringService.compute_score ScoringService.default_service poi user distance in
     (0 <= sim <= 1 ∧ 0 <= rating <= 1 ∧ 0 <= dist <= 1 ∧ 0 <= final <= 1)%R)
  ∧ (∀ (gis : GIS) db user context,
       Forall (λ poi, (0 <= average_rating poi <= 5)%R) (pois db) →
       Forall scores_in_unit
         (ScoringService.generate_recommendations
            ScoringService.default_service db user context)).
Proof.
  split.
  - intros user poi distance Hr. by apply compute_score_default_bounds.
  - intros gis db user context Hall.
    apply Forall_forall. intros s Hs.
    apply elem_of_generate_recommendations in Hs as (pd & Hpd & ->).
    apply elem_of_candidate_pois in Hpd as (Hin & _).
    rewrite Forall_forall in Hall.
    apply Hall in Hin.
    pose proof (compute_score_default_bounds pd.1 user (Some pd.2) Hin) as Hb.
    rewrite <- score_candidate_scores in Hb. exact Hb.
Qed.

Lemma default_scores_in_unit_interval_witness :
  Forall scores_in_unit
    (@ScoringService.generate_recommendations Sample.flat_gis
       ScoringService.default_service Sample.three_alike
       Sample.nature_lover Sample.here).
Proof.
  apply default_scores_in_unit_interval.
  repeat constructor; simpl; lra.
Defined.

(** ** Ranking *)

Section Ranking.
Import ScoringService.
Local Open Scope R_scope.

Lemma sort_desc_float_sorted {A} (key : A → R) (l : list A) :
  StronglySorted (λ a b, key a >= key b) (sort_desc_float key l).
Proof.
  apply sort_sorted.
  - intros a b Hlt. apply bool_decide_eq_true in Hlt. lra.
  - intros a b Hlt. apply bool_decide_eq_false in Hlt. lra.
  - intros a b c ??. lra.
Qed.

Lemma sort_desc_float_stable {A} (key : A → R) (v : R) (l : list A) :
  filter (λ a, key a = v) (sort_desc_float key l) = filter (λ a, key a = v) l.
Proof.
  apply filter_sort. intros a b Hlt Ha Hb.
  apply bool_decide_eq_true in Hlt. lra.
Qed.

Lemma sort_desc_float_ties {A} (key : A → R) (v : R) (l : list A) :
  Forall (λ a, key a = v) l → sort_desc_float key l = l.
Proof.
  induction 1 as [|a l Ha Hl IH]; [done|].
  unfold sort_desc_float in *.
  change (Py.sort ?lt (a :: l)) with (Py.insert lt a (Py.sort lt l)).
  rewrite IH. destruct Hl as [|b l Hb Hl]; [done|].
  cbn [Py.insert]. rewrite bool_decide_eq_false_2; [done|lra].
Qed.

Lemma StronglySorted_app_l {A} (R : A → A → Prop) (l1 l2 : list A) :
  StronglySorted R (l1 ++ l2) → StronglySorted R l1.
Proof.
  induction l1 as [|a l1 IH]; simpl; [constructor|].
  inversion 1 as [|? ? Hs Ha]; subst. constructor; [by apply IH|].
  apply Forall_app in Ha. tauto.
Qed.
End Ranking.

(** C3 (amended). For a context with [max_results >= 1], the list
    returned by [generate_recommendations] has at most [max_results]
    rows and is sorted by [final_score] in descending order with no
    inversions; it is the front of a reordering of all scored candidates
    in which rows of equal [final_score] keep the order the candidate
    query gave them. *)
Theorem recommendations_sorted_truncated_stable (gis : GIS)
    (self : ScoringService.t) (db : DB) (user : UserProfile)
    (context : ContextDTO) :
  (1 ≤ max_results context)%Z →
  let scored :=
    map (ScoringService.score_candidate self user)
        (ScoringService.candidate_pois db context) in
  let result := ScoringService.generate_recommendations self db user context in
  (Z.of_nat (length result) ≤ max_results context)%Z
  ∧ StronglySorted (λ a b, (final_score a >= final_score b)%R) result
  ∧ ∃ rest,
      result ++ rest ≡ₚ scored
      ∧ StronglySorted (λ a b, (final_score a >= final_score b)%R) (result ++ rest)
      ∧ ∀ v, filter (λ s, final_score s = v) (result ++ rest)
             = filter (λ s, final_score s = v) scored.
Proof.
  intros Hmax scored result.
  unfold result, ScoringService.generate_recommendations. fold scored.
  destruct (slice_to_prefix (sort_desc_float final_score scored) (max_results context))
    as [rest Hrest].
  pose proof (sort_desc_float_sorted final_score scored) as Hsorted.
  split; [apply slice_to_length; lia|].
  split.
  - rewrite Hrest in Hsorted. by apply StronglySorted_app_l in Hsorted.
  - exists rest. rewrite <- Hrest. split; [apply sort_perm|].
    split; [exact Hsorted|]. intros v. apply sort_desc_float_stable.
Qed.

Lemma recommendations_sorted_truncated_stable_witness :
  (Z.of_nat (length (@ScoringService.generate_recommendations Sample.flat_gis
      ScoringService.default_service Sample.three_alike Sample.nature_lover
      Sample.here)) ≤ 10)%Z.
Proof.
  apply (recommendations_sorted_truncated_stable Sample.flat_gis
           ScoringService.default_service Sample.three_alike
           Sample.nature_lover Sample.here).
  simpl. lia.
Defined.

Section SampleRuns.
Import ScoringService Sample.
Local Open Scope R_scope.

Lemma flat_distance_origin :
  @DistanceFunc flat_gis origin {| x := 0; y := 0 |} = 0.
Proof.
  unfold DistanceFunc, flat_gis, origin. cbn [x y].
  rewrite Rminus_diag, Rabs_R0. lra.
Qed.

Lemma candidate_pois_three_alike :
  @candidate_pois flat_gis three_alike here
  = [ (poi_at_origin 2 ["nature"], @DistanceFunc flat_gis origin origin);
      (poi_at_origin 1 ["nature"], @DistanceFunc flat_gis origin origin);
      (poi_at_origin 3 ["nature"], @DistanceFunc flat_gis origin origin) ].
Proof.
  unfold candidate_pois, is_open_in_meta_fields.
  rewrite andb_false_r. cbv zeta.
  unfold user_point.
  cbn [three_alike pois map here user_location longitude latitude
       radius_meters blacklist_entries poi_at_origin location].
  fold origin.
  rewrite !filter_cons, filter_nil. cbn [fst snd].
  rewrite !decide_True; [done|done..|idtac|idtac|idtac];
    unfold origin at 2; rewrite flat_distance_origin; lra.
Qed.
End SampleRuns.

Lemma slice_to_all {A} (l : list A) (n : Z) :
  (Z.of_nat (length l) ≤ n)%Z → slice_to l n = l.
Proof.
  intros Hn. unfold slice_to.
  destruct (0 <=? n)%Z eqn:E; [|lia].
  apply take_ge. lia.
Qed.

(** C3 (as stated, refuted). Three candidates with one and the same
    [final_score], stored as 2, 1, 3, are returned as 2, 1, 3: rows of
    equal score are not ordered by candidate id. *)
Lemma ties_keep_query_order_not_id_order :
  let result :=
    @ScoringService.generate_recommendations Sample.flat_gis
      ScoringService.default_service Sample.three_alike Sample.nature_lover
      Sample.here in
  map s_poi_id result = [2; 1; 3]%N
  ∧ ∃ v, Forall (λ s, final_score s = v) result.
Proof.
  cbv zeta. unfold ScoringService.generate_recommendations.
  rewrite candidate_pois_three_alike.
  set (d := @DistanceFunc Sample.flat_gis Sample.origin Sample.origin).
  set (v := final_score
              (ScoringService.score_candidate ScoringService.default_service
                 Sample.nature_lover (Sample.poi_at_origin 2 ["nature"], d))).
  assert (Forall (λ s, final_score s = v)
            (map (ScoringService.score_candidate ScoringService.default_service
                    Sample.nature_lover)
               [ (Sample.poi_at_origin 2 ["nature"], d);
                 (Sample.poi_at_origin 1 ["nature"], d);
                 (Sample.poi_at_origin 3 ["nature"], d) ])) as Hties.
  { repeat constructor. }
  rewrite (sort_desc_float_ties _ v _ Hties).
  split; [|by exists v].
  rewrite slice_to_all by (cbn; lia).
  cbn [map]. by rewrite !score_candidate_id.
Qed.

(** ** Blacklist exclusion *)

Section Blacklist.
Import ScoringService TrendAnalyzer.
Context `{GIS}.

Lemma candidate_pois_single_kept (db : DB) (context : ContextDTO) (poi : POI) :
  pois db = [poi] →
  (DistanceFunc (location poi) (user_point context) <= radius_meters context)%R →
  blacklist_entries db !! poi_id poi = None →
  candidate_pois db context
  = [(poi, DistanceFunc (location poi) (user_point context))].
Proof.
  intros Hp Hd Hb. unfold candidate_pois, is_open_in_meta_fields.
  rewrite andb_false_r, Hp. cbv zeta. cbn [map].
  rewrite (filter_cons (λ pd, (pd.2 <= _)%R)), filter_nil.
  rewrite decide_True by exact Hd.
  rewrite filter_cons, filter_nil.
  by rewrite decide_True by exact Hb.
Qed.

Lemma candidate_pois_single_dropped (db : DB) (context : ContextDTO)
    (poi : POI) (entry : BlacklistedPOI) :
  pois db = [poi] →
  blacklist_entries db !! poi_id poi = Some entry →
  candidate_pois db context = [].
Proof.
  intros Hp Hb. unfold candidate_pois, is_open_in_meta_fields.
  rewrite andb_false_r, Hp. cbv zeta. cbn [map].
  rewrite (filter_cons (λ pd, (pd.2 <= _)%R)), filter_nil.
  case_decide; [|done].
  rewrite filter_cons, filter_nil. cbn [fst].
  rewrite decide_False; [done|]. by rewrite Hb.
Qed.

Lemma cleanup_lookup (db : DB) (now : datetime) (id : uuid) :
  blacklist_entries (cleanup_expired_blacklist db now).1.1 !! id
  = match blacklist_entries db !! id with
    | Some entry => if decide (expires_at entry ≤ now)%Z then None else Some entry
    | None => None
    end.
Proof.
  unfold cleanup_expired_blacklist. cbn [fst set_blacklist_entries blacklist_entries].
  destruct (blacklist_entries db !! id) as [entry|] eqn:Hb.
  - case_decide as He.
    + apply map_lookup_filter_None. right. intros e Hl. cbn.
      rewrite Hb in Hl. injection Hl as <-. tauto.
    + apply map_lookup_filter_Some. by split.
  - apply map_lookup_filter_None. by left.
Qed.

Lemma cleanup_keeps_pois (db : DB) (now : datetime) :
  pois (cleanup_expired_blacklist db now).1.1 = pois db.
Proof. reflexivity. Qed.
End Blacklist.

(** C2 (amended). A candidate POI is excluded from
    [generate_recommendations] on account of blacklisting exactly when a
    blacklist row for it is stored at query time, whether or not that
    row has run out: a POI with a stored row never appears in the
    results regardless of its scores; a row that has run out goes on
    excluding its POI until the cleanup sweep deletes it, and the sweep
    deletes the rows that have run out and no others. *)
Theorem blacklist_row_excludes_until_swept (gis : GIS)
    (self : ScoringService.t) (db : DB) (user : UserProfile)
    (context : ContextDTO) :
  (∀ s, s ∈ ScoringService.generate_recommendations self db user context →
        blacklist_entries db !! s_poi_id s = None)
  ∧ (∀ poi, poi ∈ pois db →
       (DistanceFunc (location poi) (ScoringService.user_point context)
        <= radius_meters context)%R →
       ((poi, DistanceFunc (location poi) (ScoringService.user_point context))
          ∈ ScoringService.candidate_pois db context
        ↔ blacklist_entries db !! poi_id poi = None))
  ∧ (∀ now id entry,
       blacklist_entries db !! id = Some entry →
       blacklist_entries (TrendAnalyzer.cleanup_expired_blacklist db now).1.1 !! id
       = if decide (expires_at entry ≤ now)%Z then None else Some entry).
Proof.
  split; [|split].
  - intros s Hs.
    apply elem_of_generate_recommendations in Hs as (pd & Hpd & ->).
    rewrite score_candidate_id.
    by apply elem_of_candidate_pois in Hpd as (_ & _ & _ & Hb).
  - intros poi Hin Hd. rewrite elem_of_candidate_pois. cbn [fst snd].
    tauto.
  - intros now id entry Hb. by rewrite cleanup_lookup, Hb.
Qed.

Lemma blacklist_row_excludes_until_swept_witness :
  blacklist_entries
    (TrendAnalyzer.cleanup_expired_blacklist Sample.stale_blacklist 50).1.1 !! 1%N
  = Some {| reason := "Negative feedback spike"; bl_created_at := 0;
            expires_at := 100 |}.
Proof.
  destruct (blacklist_row_excludes_until_swept Sample.flat_gis
              ScoringService.default_service Sample.stale_blacklist
              Sample.nature_lover Sample.here) as (_ & _ & Hsweep).
  rewrite (Hsweep 50%Z 1%N _ (lookup_singleton_eq _ _)).
  reflexivity.
Defined.

(** C2 (as stated, refuted). POI 1 lies within the radius and its
    blacklist row ran out at second 100; at second 200, before any sweep,
    it is still left out of the results, and once the sweep has deleted
    the row it is returned. *)
Lemma expired_row_still_excludes :
  (∃ entry, blacklist_entries Sample.stale_blacklist !! 1%N = Some entry
            ∧ (expires_at entry ≤ 200)%Z)
  ∧ @ScoringService.generate_recommendations Sample.flat_gis
      ScoringService.default_service Sample.stale_blacklist
      Sample.nature_lover Sample.here = []
  ∧ map s_poi_id
      (@ScoringService.generate_recommendations Sample.flat_gis
         ScoringService.default_service
         (TrendAnalyzer.cleanup_expired_blacklist Sample.stale_blacklist 200).1.1
         Sample.nature_lover Sample.here) = [1%N].
Proof.
  split; [|split].
  - eexists. split; [apply lookup_singleton_eq|]. cbn. lia.
  - unfold ScoringService.generate_recommendations.
    erewrite (@candidate_pois_single_dropped Sample.flat_gis);
      [done | reflexivity | apply lookup_singleton_eq].
  - unfold ScoringService.generate_recommendations.
    rewrite (@candidate_pois_single_kept Sample.flat_gis _ _
               (Sample.poi_at_origin 1 ["nature"])).
    + cbn [map]. unfold sort_desc_float. cbn [Py.sort foldr Py.insert].
      rewrite slice_to_all by (cbn; lia).
      cbn [map]. by rewrite score_candidate_id.
    + reflexivity.
    + cbn [location Sample.poi_at_origin]. unfold ScoringService.user_point.
      cbn [Sample.here user_location longitude latitude radius_meters].
      rewrite flat_distance_origin. lra.
    + rewrite cleanup_lookup.
      cbn [Sample.poi_at_origin poi_id].
      unfold Sample.stale_blacklist. cbn [blacklist_entries].
      rewrite lookup_singleton_eq. cbn [expires_at].
      by rewrite decide_True by lia.
Qed.

(** ** [update_user_vector] *)

Section PreferenceUpdate.
Import ScoringService.

Lemma update_vector_fold (db : DB) (profile : UserProfile) (w : R)
    (tags : list string) :
  fold_left (λ db tag, update_vector db profile tag w) tags db = db.
Proof. induction tags as [|tag tags IH]; [done|exact IH]. Qed.

(** Whatever the call returns, the tables are the ones it was given. *)
Lemma update_user_vector_keeps_db (db db' : DB) (user_id : uuid)
    (interaction : InteractionType) (log : list log_line) :
  update_user_vector db user_id interaction = Returned (db', log) → db' = db.
Proof.
  unfold update_user_vector, objects_get.
  destruct (profiles db !! user_id) as [profile|]; [|congruence].
  destruct (recent_interactions db profile interaction) as [|i ?]; [congruence|].
  destruct (poi_of db i) as [poi|]; [|congruence].
  destruct (tags poi) as [|tag tags] eqn:Ht; [congruence|].
  rewrite update_vector_fold. congruence.
Qed.
End PreferenceUpdate.

(** C9 (amended). When [update_user_vector] is called for a user id that
    has no profile, it prints that the user was not found and returns
    normally: no error reaches the caller and no stored data changes. *)
Theorem update_user_vector_unknown_user_returns (db : DB) (user_id : uuid)
    (interaction : InteractionType) :
  profiles db !! user_id = None →
  ScoringService.update_user_vector db user_id interaction
  = Returned (db, [ScoringService.User_not_found user_id])
  ∧ ∀ e, ScoringService.update_user_vector db user_id interaction ≠ Raised e.
Proof.
  intros Hnone. unfold ScoringService.update_user_vector, ScoringService.objects_get.
  rewrite Hnone. split; [reflexivity | discriminate].
Qed.

Lemma update_user_vector_unknown_user_returns_witness :
  ScoringService.update_user_vector Sample.empty_db 7%N LIKE
  = Returned (Sample.empty_db, [ScoringService.User_not_found 7%N]).
Proof.
  apply (update_user_vector_unknown_user_returns Sample.empty_db 7%N LIKE).
  reflexivity.
Defined.

(** The view above it hands the outcome on unchanged: a stored
    interaction whose user has no profile ends in a normal return. *)
Lemma unknown_user_raises_nothing :
  profiles Sample.empty_db !! 7%N = None
  ∧ ScoringService.update_user_vector Sample.empty_db 7%N LIKE ≠ Raised NotFound
  ∧ ∀ e, ScoringService.update_user_vector Sample.empty_db 7%N LIKE ≠ Raised e.
Proof.
  split; [reflexivity|]. split; [discriminate|]. intros e. discriminate.
Qed.

(** C1 (the code at the failing input). User 7 starts with an empty
    vector and has liked a POI tagged ["x"]. Two LIKE updates in a row
    both return normally and leave the weight of ["x"] unset where 0.6
    is due: the increment is chosen and the tags are walked, but
    [update_vector] stores nothing. *)
Theorem two_likes_leave_vector_empty :
  match ScoringService.update_user_vector Sample.liked_x 7%N LIKE with
  | Returned (db1, _) =>
      match ScoringService.update_user_vector db1 7%N LIKE with
      | Returned (db2, _) =>
          profiles db2 !! 7%N ≫= (λ profile, preferences_vector profile !! "x")
          = None
      | Raised _ => False
      end
  | Raised _ => False
  end.
Proof. reflexivity. Qed.

(** ** The vectors behind [similarity_score] *)

Section Assign.
Context {B : Type} (n : nat) (g : B → R) (f : list R → nat * B → list R).
Hypothesis f_assigns : ∀ v i b,
  length v = n → f v (i, b) = if decide (i < n)%nat then <[i := g b]> v else v.

Lemma fold_assign_from (bs : list B) (k : nat) (v : list R) :
  length v = n →
  fold_left f (imap (λ i b, ((k + i)%nat, b)) bs) v
  = take k v ++ take (n - k) (map g bs) ++ drop (k + length bs) v.
Proof.
  revert k v. induction bs as [|b bs IH]; intros k v Hv.
  - rewrite imap_nil. cbn [fold_left map length].
    by rewrite take_nil, Nat.add_0_r, app_nil_l, take_drop.
  - rewrite imap_cons. cbn [fold_left].
    rewrite (imap_ext _ (λ i b, ((S k + i)%nat, b))) by (intros; cbn; f_equal; lia).
    rewrite Nat.add_0_r, f_assigns by done.
    case_decide as Hk.
    + rewrite IH by by rewrite length_insert.
      rewrite (take_S_r _ _ (g b)) by (apply list_lookup_insert_eq; lia).
      rewrite take_insert_ge by lia.
      rewrite drop_insert_lt by lia.
      replace (n - k)%nat with (S (n - S k)) by lia.
      cbn [map take length]. rewrite <- app_assoc. cbn.
      by rewrite Nat.add_succ_r.
    + rewrite IH by done.
      replace (n - S k)%nat with 0%nat by lia.
      replace (n - k)%nat with 0%nat by lia.
      rewrite !take_0, !drop_ge, !take_ge by lia. done.
Qed.

Lemma fold_assign (bs : list B) :
  fold_left f (enumerate bs) (replicate n 0%R)
  = take n (map g bs) ++ replicate (n - length bs) 0%R.
Proof.
  unfold enumerate.
  rewrite (imap_ext _ (λ i b, ((0 + i)%nat, b))) by done.
  rewrite fold_assign_from by apply length_replicate.
  by rewrite take_0, Nat.sub_0_r, drop_replicate.
Qed.
End Assign.

Section Positional.
Import ScoringService.
Local Open Scope R_scope.

Lemma positional_take {B} (g : B → R) (bs : list B) :
  positional (map g (take vector_dimension bs)) = positional (map g bs).
Proof.
  unfold positional. rewrite !length_map, length_take.
  rewrite <- firstn_map, take_take, Nat.min_id.
  f_equal. f_equal. lia.
Qed.

Lemma get_user_vector_positional (user : UserProfile) :
  _get_user_vector user
  = positional
      (map (λ tw, tw.2 / max_weight_of (preferences_vector user))
         (sorted_items (preferences_vector user))).
Proof.
  unfold _get_user_vector. cbv zeta. case_decide as Hpv.
  - rewrite Hpv. unfold sorted_items. rewrite map_to_list_empty. done.
  - unfold positional. rewrite length_map.
    apply (fold_assign vector_dimension
             (λ tw : string * R, tw.2 / max_weight_of (preferences_vector user))).
    by intros v i [tag weight] _.
Qed.

Lemma get_poi_vector_positional (poi : POI) :
  _get_poi_vector poi
  = positional (map (λ _, 1 / INR (length (tags poi))) (tags poi)).
Proof.
  unfold _get_poi_vector. cbv zeta.
  destruct (tags poi) as [|tag tags] eqn:Ht; [done|].
  rewrite <- positional_take.
  unfold positional at 1. rewrite length_map.
  apply (fold_assign vector_dimension (λ _ : string, 1 / INR (length (tag :: tags)))).
  intros v i b Hv. case_decide; [done|].
  apply list_insert_ge. lia.
Qed.

Lemma sum_app (xs ys : list R) : sum (xs ++ ys) = sum xs + sum ys.
Proof.
  induction xs as [|x xs IH]; cbn [app].
  - rewrite sum_nil. lra.
  - rewrite !sum_cons, IH. lra.
Qed.

Lemma sum_zeros (n : nat) : sum (replicate n 0) = 0.
Proof.
  induction n as [|n IH]; cbn [replicate]; [apply sum_nil|].
  rewrite sum_cons, IH. lra.
Qed.

Lemma squares_of_zeros (n : nat) :
  map (λ z, z ^ 2) (replicate n 0) = replicate n 0.
Proof.
  induction n as [|m IH]; [done|].
  cbn [replicate map]. rewrite IH. f_equal. lra.
Qed.

Lemma products_of_zeros (n : nat) :
  zip_with Rmult (replicate n 0) (replicate n 0) = replicate n 0.
Proof.
  induction n as [|m IH]; [done|].
  cbn [replicate zip_with]. rewrite IH. f_equal. lra.
Qed.

(** Two vectors that are zero after a positive first entry point the
    same way. *)
Lemma calculate_similarity_first_axis (u p : R) (n : nat) :
  0 < u → 0 < p →
  calculate_similarity (u :: replicate n 0) (p :: replicate n 0) = 1.
Proof.
  intros Hu Hp. unfold calculate_similarity.
  cbn [length]. rewrite !length_replicate, Nat.min_id.
  rewrite !take_ge by (cbn [length]; rewrite length_replicate; lia).
  cbn [map zip_with].
  rewrite squares_of_zeros, products_of_zeros.
  rewrite !sum_cons, !sum_zeros, !Rplus_0_r.
  replace (u ^ 2) with (u * u) by lra. replace (p ^ 2) with (p * p) by lra.
  rewrite !sqrt_square by lra.
  repeat case_decide; try lra.
  replace (u * p / (u * p)) with 1 by (field; lra).
  rewrite Rmin_left by lra. rewrite Rmax_right by lra. done.
Qed.
End Positional.

Section SimilarityOfSamples.
Import ScoringService Sample.
Local Open Scope R_scope.

Lemma similarity_score_of_candidate (self : t) (user : UserProfile) (pd : POI * R) :
  similarity_score (score_candidate self user pd)
  = calculate_similarity (_get_user_vector user) (_get_poi_vector pd.1).
Proof. reflexivity. Qed.

Lemma max_weight_of_singleton (tag : string) (w : R) :
  w ≠ 0 → max_weight_of {[ tag := w ]} = w.
Proof.
  intros Hw. unfold max_weight_of. rewrite map_to_list_singleton.
  cbn. by rewrite decide_False.
Qed.

Lemma get_user_vector_nature_lover :
  _get_user_vector nature_lover = 1 / 1 :: replicate 99 0.
Proof.
  rewrite get_user_vector_positional.
  unfold nature_lover. cbn [preferences_vector].
  rewrite max_weight_of_singleton by lra.
  unfold sorted_items. rewrite map_to_list_singleton. reflexivity.
Qed.

Lemma get_poi_vector_one_tag (id : uuid) (tag : string) :
  _get_poi_vector (poi_at_origin id [tag]) = 1 / 1 :: replicate 99 0.
Proof. rewrite get_poi_vector_positional. reflexivity. Qed.

Lemma sparse_similarity_orthogonal (a b : gmap string R) :
  Spec.dot a b = 0 → Spec.sparse_similarity a b = 0.
Proof.
  intros Hdot. unfold Spec.sparse_similarity. rewrite Hdot.
  repeat case_decide; try done.
  unfold Rdiv. rewrite Rmult_0_l.
  rewrite Rmin_right by lra. apply Rmax_left. lra.
Qed.

Lemma union_tags_nature_food :
  Spec.union_tags (preferences_vector nature_lover) (Spec.poi_tag_weights ["food"])
  = ["nature"; "food"].
Proof. vm_compute. reflexivity. Qed.
End SimilarityOfSamples.

(** C4 (amended). The [similarity_score] produced during candidate
    scoring is [calculate_similarity] (a cosine clamped to [0, 1]) of two
    vectors laid out by position: entry [i] of the user vector is the
    weight of the user's [i]-th tag in sorted tag order divided by the
    largest weight, entry [i] of the POI vector is [1 / len(tags)] for
    the POI's [i]-th tag, both cut at 100 entries and padded with zeros.
    Tags are paired by position and not by name, so the score depends on
    how many tags the POI lists and not on which. *)
Theorem similarity_score_is_positional (self : ScoringService.t)
    (user : UserProfile) (pd : POI * R) :
  similarity_score (ScoringService.score_candidate self user pd)
  = ScoringService.calculate_similarity
      (positional
         (map (λ tw, (tw.2 / ScoringService.max_weight_of (preferences_vector user))%R)
            (sorted_items (preferences_vector user))))
      (positional
         (map (λ _, (1 / INR (length (tags pd.1)))%R) (tags pd.1)))
  ∧ ∀ pd' : POI * R,
      length (tags pd'.1) = length (tags pd.1) →
      similarity_score (ScoringService.score_candidate self user pd')
      = similarity_score (ScoringService.score_candidate self user pd).
Proof.
  split.
  - by rewrite similarity_score_of_candidate,
         get_user_vector_positional, get_poi_vector_positional.
  - intros pd' Hlen.
    rewrite !similarity_score_of_candidate, !get_poi_vector_positional.
    rewrite Hlen. do 2 f_equal.
    generalize (1 / INR (length (tags pd.1)))%R. intros c.
    revert Hlen. generalize (tags pd.1) (tags pd'.1).
    induction l as [|a l IH]; intros [|a' l'] Hlen; try done.
    cbn [map]. f_equal. apply IH. by injection Hlen.
Qed.

Lemma similarity_score_is_positional_witness :
  similarity_score
    (ScoringService.score_candidate ScoringService.default_service
       Sample.nature_lover (Sample.poi_at_origin 1 ["food"], 0%R))
  = similarity_score
      (ScoringService.score_candidate ScoringService.default_service
         Sample.nature_lover (Sample.poi_at_origin 2 ["nature"], 0%R)).
Proof.
  apply (similarity_score_is_positional ScoringService.default_service
           Sample.nature_lover (Sample.poi_at_origin 2 ["nature"], 0%R)).
  reflexivity.
Defined.

(** C4 (as stated, refuted). A user whose only tag is ["nature"] and a
    POI whose only tag is ["food"] share no tag, so the cosine over the
    union of their tags is 0; the code scores the pair 1. *)
Lemma disjoint_tags_score_one :
  similarity_score
    (ScoringService.score_candidate ScoringService.default_service
       Sample.nature_lover (Sample.poi_at_origin 1 ["food"], 0%R)) = 1%R
  ∧ Spec.sparse_similarity (preferences_vector Sample.nature_lover)
      (Spec.poi_tag_weights ["food"]) = 0%R.
Proof.
  split.
  - rewrite similarity_score_of_candidate.
    cbn [fst]. rewrite get_user_vector_nature_lover, get_poi_vector_one_tag.
    apply calculate_similarity_first_axis; lra.
  - apply sparse_similarity_orthogonal.
    unfold Spec.dot. rewrite union_tags_nature_food. cbn [map].
    replace (Spec.weight_of (preferences_vector Sample.nature_lover) "food")
      with 0%R by reflexivity.
    replace (Spec.weight_of (Spec.poi_tag_weights ["food"]) "nature")
      with 0%R by reflexivity.
    rewrite !sum_cons, sum_nil. lra.
Qed.

(** ** Trending and its cache *)

Section TrendingRuns.
Import TrendAnalyzer Sample.
Local Open Scope R_scope.

Lemma flat_within (geohash : string) (p : Point) :
  -180 < x p < 180 → -90 < y p < 90 →
  location_within (_get_bbox_polygon (@bounds_of flat_gis geohash)) p.
Proof.
  intros Hx Hy. unfold bounds_of, _get_bbox_polygon, location_within.
  cbn. lra.
Qed.

Lemma origin_within (geohash : string) :
  location_within (_get_bbox_polygon (@bounds_of flat_gis geohash)) origin.
Proof. apply flat_within; cbn; lra. Qed.

Lemma trending_query_busy_day :
  @trending_query flat_gis busy_day 100000 "u"
  = [ (poi_at_origin 2 ["food"], 2%Z); (poi_at_origin 1 ["nature"], 1%Z) ].
Proof.
  unfold trending_query. cbv zeta.
  change (pois busy_day)
    with [poi_at_origin 1 ["nature"]; poi_at_origin 2 ["food"]].
  rewrite !filter_cons, filter_nil.
  rewrite !decide_True
    by (split; [apply origin_within | vm_compute; discriminate]).
  cbn [map].
  replace (Z.of_nat (length (recent_of busy_day (100000 - timedelta_hours 24)
                               (poi_at_origin 1 ["nature"])))) with 1%Z
    by (vm_compute; reflexivity).
  replace (Z.of_nat (length (recent_of busy_day (100000 - timedelta_hours 24)
                               (poi_at_origin 2 ["food"])))) with 2%Z
    by (vm_compute; reflexivity).
  reflexivity.
Qed.
End TrendingRuns.

(** C5 (the code at the failing input). POI 2 had two interactions in
    the last day and POI 1 one; POI 1 is stored first. The first call
    misses the cache and returns 2, 1, ranked by interaction count. The
    second call, a minute later and with nothing new recorded, hits the
    cache and writes nothing, but returns 1, 2: the cached ids are only
    used as a filter on the POI table, so the ranking is lost. *)
Theorem cache_hit_loses_ranking :
  let first :=
    @TrendAnalyzer.get_trending_now Sample.flat_gis
      TrendAnalyzer.default_analyzer Sample.busy_day 100000 "u" in
  let second :=
    @TrendAnalyzer.get_trending_now Sample.flat_gis
      TrendAnalyzer.default_analyzer first.1 100060 "u" in
  map poi_id first.2 = [2; 1]%N
  ∧ tl_pois <$> trending_lists first.1 !! "u" = Some [2; 1]%N
  ∧ second.1 = first.1
  ∧ map poi_id second.2 = [1; 2]%N.
Proof.
  cbv zeta.
  assert (@TrendAnalyzer.get_trending_now Sample.flat_gis
            TrendAnalyzer.default_analyzer Sample.busy_day 100000 "u"
          = (TrendAnalyzer.upsert_trending Sample.busy_day 100000 "u" [2; 1]%N,
             [Sample.poi_at_origin 2 ["food"]; Sample.poi_at_origin 1 ["nature"]]))
    as ->.
  { unfold TrendAnalyzer.get_trending_now.
    replace (trending_lists Sample.busy_day !! "u") with (@None TrendingList)
      by reflexivity.
    unfold TrendAnalyzer.recompute_trending.
    by rewrite trending_query_busy_day. }
  cbn [fst snd].
  split; [reflexivity|]. split; [reflexivity|].
  split; vm_compute; reflexivity.
Qed.

(** ** Seasonal analysis *)

Section SeasonalFacts.
Import TrendAnalyzer.
Context `{Calendar}.

Lemma season_of_months (m : Z) (s : Season) :
  (1 ≤ m ≤ 12)%Z → season_of m = s ↔ m ∈ months_of s.
Proof.
  intros Hm.
  assert (m ∈ [1; 2; 3; 4; 5; 6; 7; 8; 9; 10; 11; 12]%Z) as Hcases.
  { rewrite !elem_of_cons. lia. }
  rewrite !elem_of_cons, elem_of_nil in Hcases.
  destruct s; cbn [months_of]; rewrite !elem_of_cons, elem_of_nil;
    (split; [intros Hs | intros Hin]);
    repeat (destruct Hcases as [->|Hcases]; [first [done | lia | (cbv in Hs; discriminate) | tauto]|]);
    done.
Qed.

Lemma fold_increment (l : list Interaction) (counts : Season → Z) (s : Season) :
  fold_left
    (λ season_counts interaction,
       increment season_counts (season_of (month (timestamp interaction))))
    l counts s
  = (counts s
     + Z.of_nat (length (filter (λ i, season_of (month (timestamp i)) = s) l)))%Z.
Proof.
  revert counts. induction l as [|i l IH]; intros counts.
  - cbn. lia.
  - cbn [fold_left]. rewrite IH, filter_cons. unfold increment.
    destruct (decide (season_of (month (timestamp i)) = s)) as [->|Hne].
    + rewrite decide_True by done. cbn [length]. lia.
    + rewrite decide_False by done. lia.
Qed.

Lemma count_by_season_counts (l : list Interaction) (s : Season) :
  count_by_season l s
  = Z.of_nat (length (filter (λ i, season_of (month (timestamp i)) = s) l)).
Proof. unfold count_by_season. by rewrite fold_increment. Qed.

Lemma visit_count_seasonal_row (now : datetime) (l : list Interaction) (s : Season) :
  visit_count (seasonal_row now l) s = count_by_season l s.
Proof. by destruct s. Qed.

Lemma peak_of_is_first_maximum (counts : Season → Z) (s : Season) :
  (counts s ≤ counts (peak_of counts))%Z
  ∧ (season_rank s < season_rank (peak_of counts) →
     (counts s < counts (peak_of counts))%Z).
Proof.
  unfold peak_of, season_keys, max_by. cbn [fold_left].
  destruct (counts SPRING <? counts SUMMER)%Z eqn:E1;
    [destruct (counts SUMMER <? counts FALL)%Z eqn:E2
    |destruct (counts SPRING <? counts FALL)%Z eqn:E2];
    [destruct (counts FALL <? counts WINTER)%Z eqn:E3
    |destruct (counts SUMMER <? counts WINTER)%Z eqn:E3
    |destruct (counts FALL <? counts WINTER)%Z eqn:E3
    |destruct (counts SPRING <? counts WINTER)%Z eqn:E3];
    destruct s; cbn [season_rank]; lia.
Qed.

Lemma analyze_poi_tables (now : datetime) (db : DB) (poi : POI) :
  interactions (analyze_poi now db poi) = interactions db
  ∧ pois (analyze_poi now db poi) = pois db.
Proof.
  unfold analyze_poi. by destruct (interactions_of db (poi_id poi)).
Qed.

Lemma analyze_poi_lookup (now : datetime) (db : DB) (poi : POI) (id : uuid) :
  seasonal_metadata (analyze_poi now db poi) !! id
  = if decide (poi_id poi = id ∧ interactions_of db id ≠ [])
    then Some (seasonal_row now (interactions_of db id))
    else seasonal_metadata db !! id.
Proof.
  unfold analyze_poi.
  destruct (decide (poi_id poi = id)) as [<-|Hne].
  - destruct (interactions_of db (poi_id poi)) as [|i l] eqn:Hi.
    + rewrite decide_False by tauto. done.
    + rewrite decide_True by done.
      cbn [seasonal_metadata set_seasonal_metadata]. apply lookup_insert_eq.
  - rewrite decide_False by tauto.
    destruct (interactions_of db (poi_id poi)); [done|].
    cbn [seasonal_metadata set_seasonal_metadata]. by apply lookup_insert_ne.
Qed.

Lemma analyze_fold_lookup (now : datetime) (ps : list POI) (db : DB) (id : uuid) :
  seasonal_metadata (fold_left (analyze_poi now) ps db) !! id
  = if decide (id ∈ map poi_id ps ∧ interactions_of db id ≠ [])
    then Some (seasonal_row now (interactions_of db id))
    else seasonal_metadata db !! id.
Proof.
  revert db. induction ps as [|p ps IH]; intros db.
  - cbn [fold_left map]. rewrite decide_False; [done|].
    intros [Hin _]. by apply elem_of_nil in Hin.
  - cbn [fold_left map]. rewrite IH.
    assert (interactions_of (analyze_poi now db p) id = interactions_of db id) as ->.
    { unfold interactions_of. by destruct (analyze_poi_tables now db p) as [-> _]. }
    rewrite analyze_poi_lookup.
    destruct (decide (interactions_of db id = [])) as [Hi|Hi].
    + rewrite !decide_False by tauto. done.
    + destruct (decide (id ∈ map poi_id ps)) as [Hin|Hin].
      * rewrite !decide_True; [done| |done].
        split; [|done]. apply elem_of_cons. by right.
      * rewrite (decide_False (P := id ∈ map poi_id ps ∧ _)) by tauto.
        destruct (decide (poi_id p = id)) as [Heq|Hne].
        -- rewrite !decide_True; [done| |done].
           split; [|done]. apply elem_of_cons. by left.
        -- rewrite !decide_False; [done| |tauto].
           intros [Hc _]. apply elem_of_cons in Hc as [?|?]; [congruence|done].
Qed.
End SeasonalFacts.

Lemma filter_ext_in {A} (P Q : A → Prop) `{!∀ x, Decision (P x)}
    `{!∀ x, Decision (Q x)} (l : list A) :
  (∀ x, x ∈ l → P x ↔ Q x) → filter P l = filter Q l.
Proof.
  induction l as [|a l IH]; intros Hext; [done|].
  rewrite !filter_cons.
  rewrite IH by (intros x Hx; apply Hext; apply elem_of_cons; by right).
  assert (P a ↔ Q a) as Ha by (apply Hext, elem_of_cons; by left).
  destruct (decide (P a)), (decide (Q a)); tauto || done.
Qed.

(** C8. After [analyze_seasonal_trends], every POI with at least one
    interaction has a seasonal record whose four counters are the
    numbers of that POI's interactions whose month falls in the season
    (March to May spring, June to August summer, September to November
    fall, December to February winter) and whose peak season has the
    largest counter, the earliest of spring, summer, fall, winter among
    equals; the record is written whole from the interactions, whatever
    was stored before. *)
Theorem seasonal_analysis_recounts (cal : Calendar) (db : DB)
    (now : datetime) (poi : POI) :
  poi ∈ pois db →
  (∃ i, i ∈ interactions db ∧ i_poi i = poi_id poi) →
  Forall (λ i, (1 ≤ month (timestamp i) ≤ 12)%Z) (interactions db) →
  ∃ md,
    seasonal_metadata (TrendAnalyzer.analyze_seasonal_trends db now).1
      !! poi_id poi = Some md
    ∧ (∀ s, visit_count md s
            = Z.of_nat (length (filter
                (λ i, i_poi i = poi_id poi ∧ month (timestamp i) ∈ months_of s)
                (interactions db))))
    ∧ (∀ s, (visit_count md s ≤ visit_count md (peak_season md))%Z)
    ∧ (∀ s, season_rank s < season_rank (peak_season md) →
            (visit_count md s < visit_count md (peak_season md))%Z)
    ∧ last_analyzed_at md = now.
Proof.
  intros Hpoi (i & Hi & Hip) Hmonths.
  unfold TrendAnalyzer.analyze_seasonal_trends. cbn [fst].
  rewrite analyze_fold_lookup.
  assert (TrendAnalyzer.interactions_of db (poi_id poi) ≠ []) as Hne.
  { intros Hnil.
    assert (i ∈ TrendAnalyzer.interactions_of db (poi_id poi)) as Hin
      by (by apply list_elem_of_filter).
    rewrite Hnil in Hin. by apply elem_of_nil in Hin. }
  rewrite decide_True
    by (split; [by apply list_elem_of_fmap_2 with (f := poi_id) | done]).
  eexists. split; [done|].
  split; [|split; [|split; [|done]]].
  - intros s. rewrite visit_count_seasonal_row, count_by_season_counts.
    unfold TrendAnalyzer.interactions_of.
    rewrite list_filter_filter. do 2 f_equal.
    apply filter_ext_in. intros j Hj.
    rewrite Forall_forall in Hmonths.
    rewrite (season_of_months _ s (Hmonths j Hj)). tauto.
  - intros s. rewrite !visit_count_seasonal_row.
    apply peak_of_is_first_maximum.
  - intros s. rewrite !visit_count_seasonal_row.
    apply peak_of_is_first_maximum.
Qed.

Lemma seasonal_analysis_recounts_witness :
  ∃ md,
    seasonal_metadata
      (@TrendAnalyzer.analyze_seasonal_trends utc_calendar Sample.busy_day 100000).1
      !! 2%N = Some md
    ∧ last_analyzed_at md = 100000%Z.
Proof.
  destruct (seasonal_analysis_recounts utc_calendar Sample.busy_day 100000
              (Sample.poi_at_origin 2 ["food"]))
    as (md & Hmd & _ & _ & _ & Hnow).
  - apply elem_of_cons. right. apply elem_of_cons. by left.
  - eexists. split; [apply elem_of_cons; by left | reflexivity].
  - repeat constructor; vm_compute; discriminate.
  - exists md. by split.
Defined.

(** * Further properties of the scoring service *)

Section SimilarityMore.
Import ScoringService.
Local Open Scope R_scope.

Lemma zip_with_take_min {A B C} (f : A → B → C) (a : list A) (b : list B) :
  zip_with f (take (Nat.min (length a) (length b)) a)
             (take (Nat.min (length a) (length b)) b)
  = zip_with f a b.
Proof.
  revert b. induction a as [|x a IH]; intros [|y b]; cbn; try done.
  f_equal. apply IH.
Qed.

Lemma calculate_similarity_extra_l (a b extra : list R) :
  length a = length b → a ≠ [] →
  calculate_similarity (a ++ extra) b = calculate_similarity a b.
Proof.
  intros Hlen Ha. unfold calculate_similarity.
  destruct a as [|u a]; [done|]. destruct b as [|p b]; [done|].
  cbn [length] in Hlen. injection Hlen as Hlen.
  cbn [app length]. rewrite length_app, <- Hlen.
  replace (Nat.min (S (length a + length extra)) (S (length a)))
    with (S (length a)) by lia.
  rewrite Nat.min_id. cbn [firstn].
  rewrite take_app_length, firstn_all.
  reflexivity.
Qed.

Lemma calculate_similarity_dot_nonpositive (a b : list R) :
  sum (zip_with Rmult a b) <= 0 → calculate_similarity a b = 0.
Proof.
  intros Hdot. unfold calculate_similarity.
  destruct a as [|u a]; [done|]. destruct b as [|p b]; [done|].
  rewrite zip_with_take_min.
  set (n := Nat.min _ _).
  pose proof (sqrt_pos (sum (map (λ u0, u0 ^ 2) (take n (u :: a))))) as Hu.
  pose proof (sqrt_pos (sum (map (λ u0, u0 ^ 2) (take n (p :: b))))) as Hp.
  set (U := sqrt (sum (map _ (take n (u :: a))))) in *.
  set (P := sqrt (sum (map _ (take n (p :: b))))) in *.
  repeat case_decide; try done.
  assert (0 < U) by (destruct Hu as [?|?]; [done|congruence]).
  assert (0 < P) by (destruct Hp as [?|?]; [done|congruence]).
  assert (0 < U * P) by nra.
  assert (sum (zip_with Rmult (u :: a) (p :: b)) / (U * P) <= 0).
  { unfold Rdiv. assert (0 < / (U * P)) by (by apply Rinv_0_lt_compat). nra. }
  rewrite Rmin_right by lra. apply Rmax_left. lra.
Qed.
End SimilarityMore.

(** X1. [calculate_similarity] cuts both vectors to the shorter length:
    entries a vector has beyond the length of the other do not change
    the result, on either side. *)
Theorem similarity_ignores_overhang (a b extra : list R) :
  length a = length b → a ≠ [] →
  ScoringService.calculate_similarity (a ++ extra) b
  = ScoringService.calculate_similarity a b
  ∧ ScoringService.calculate_similarity b (a ++ extra)
    = ScoringService.calculate_similarity b a.
Proof.
  intros Hlen Ha. split.
  - by apply calculate_similarity_extra_l.
  - rewrite !(calculate_similarity_sym b). by apply calculate_similarity_extra_l.
Qed.

Lemma similarity_ignores_overhang_witness :
  ScoringService.calculate_similarity ([1; 2] ++ [7])%R [3; 4]%R
  = ScoringService.calculate_similarity [1; 2]%R [3; 4]%R.
Proof.
  apply (similarity_ignores_overhang [1; 2]%R [3; 4]%R [7]%R); done.
Defined.



Section VectorsMore.
Import ScoringService.
Local Open Scope R_scope.

Lemma positional_length (values : list R) :
  length (positional values) = vector_dimension.
Proof.
  unfold positional. rewrite length_app, length_take, length_replicate. lia.
Qed.

Lemma positional_Forall (P : R → Prop) (values : list R) :
  P 0 → Forall P values → Forall P (positional values).
Proof.
  intros H0 Hv. unfold positional. apply Forall_app. split.
  - by apply Forall_take.
  - by apply Forall_replicate.
Qed.

Lemma max_float_upper (v : R) (vs : list R) :
  v <= max_float v vs ∧ Forall (λ w, w <= max_float v vs) vs.
Proof.
  unfold max_float. revert v. induction vs as [|w vs IH]; intros v.
  - cbn. split; [lra | constructor].
  - cbn [fold_left]. case_decide as Hlt.
    + destruct (IH w) as [Hw Hall]. split; [lra|]. by constructor.
    + destruct (IH v) as [Hv Hall]. split; [done|]. constructor; [lra|done].
Qed.

Lemma max_weight_of_upper (pv : gmap string R) (tag : string) (w : R) :
  pv !! tag = Some w → 0 <= w → 0 < max_weight_of pv ∧ w <= max_weight_of pv.
Proof.
  intros Hlook Hw.
  assert (w ∈ (map_to_list pv).*2) as Hin.
  { apply list_elem_of_fmap. exists (tag, w). split; [done|].
    by apply elem_of_map_to_list. }
  unfold max_weight_of.
  destruct ((map_to_list pv).*2) as [|v vs]; [by apply elem_of_nil in Hin|].
  destruct (max_float_upper v vs) as [Hv Hvs].
  assert (w <= max_float v vs) as Hle.
  { apply elem_of_cons in Hin as [->|Hin]; [done|].
    rewrite Forall_forall in Hvs. by apply Hvs. }
  case_decide as Hz; lra.
Qed.

Lemma elem_of_sorted_items {V} (d : gmap string V) (tag : string) (v : V) :
  (tag, v) ∈ sorted_items d ↔ d !! tag = Some v.
Proof.
  unfold sorted_items. by rewrite elem_of_sort, elem_of_map_to_list.
Qed.

Lemma final_score_of_candidate (self : t) (user : UserProfile) (pd : POI * R) :
  final_score (score_candidate self user pd)
  = similarity_score (score_candidate self user pd) * WEIGHT_INTEREST self
    + rating_score (score_candidate self user pd) * WEIGHT_RATING self
    + distance_score (score_candidate self user pd) * WEIGHT_DISTANCE self.
Proof. reflexivity. Qed.

Lemma rating_score_of_candidate (self : t) (user : UserProfile) (pd : POI * R) :
  rating_score (score_candidate self user pd) = average_rating pd.1 / 5.
Proof.
  change (rating_score (score_candidate self user pd))
    with (if decide (average_rating pd.1 = 0) then 0 else average_rating pd.1 / 5).
  case_decide as Hz; [rewrite Hz; lra | done].
Qed.

Lemma distance_score_of_candidate (self : t) (user : UserProfile) (pd : POI * R) :
  distance_score (score_candidate self user pd)
  = _calculate_distance_decay (Some pd.2).
Proof.
  change (distance_score (score_candidate self user pd))
    with (if decide (pd.2 = 0) then 1 else _calculate_distance_decay (Some pd.2)).
  case_decide as Hz; [|done].
  rewrite Hz. symmetry. apply decay_nonpositive. lra.
Qed.
End VectorsMore.

(** X4. The two vectors compared in [compute_score] always have
    [vector_dimension] = 100 entries, whatever the number of stored
    weights or tags, so [calculate_similarity] never shortens them. *)
Theorem score_vectors_have_dimension (user : UserProfile) (poi : POI) :
  length (ScoringService._get_user_vector user) = 100
  ∧ length (ScoringService._get_poi_vector poi) = 100.
Proof.
  rewrite get_user_vector_positional, get_poi_vector_positional.
  split; apply positional_length.
Qed.

(** X5. When no stored weight is negative, every entry of
    [_get_user_vector] lies in [0, 1]: the weights are divided by the
    largest of them. *)
Theorem user_vector_entries_in_unit (user : UserProfile) :
  map_Forall (λ _ w, (0 <= w)%R) (preferences_vector user) →
  Forall (λ e, (0 <= e <= 1)%R) (ScoringService._get_user_vector user).
Proof.
  intros Hpos. rewrite get_user_vector_positional.
  apply positional_Forall; [lra|].
  apply Forall_forall. intros e He.
  apply list_elem_of_fmap in He as ([tag w] & -> & Hin).
  apply elem_of_sorted_items in Hin.
  pose proof (Hpos _ _ Hin) as Hw. cbn in Hw.
  destruct (max_weight_of_upper _ _ _ Hin Hw) as [Hmax Hle]. cbn [snd].
  split.
  - apply Rmult_le_pos; [done|]. left. by apply Rinv_0_lt_compat.
  - apply Rmult_le_reg_r with (ScoringService.max_weight_of (preferences_vector user));
      [done|].
    unfold Rdiv. rewrite Rmult_assoc, Rinv_l by lra. lra.
Qed.

Lemma user_vector_entries_in_unit_witness :
  Forall (λ e, (0 <= e <= 1)%R)
    (ScoringService._get_user_vector Sample.nature_lover).
Proof.
  apply user_vector_entries_in_unit.
  apply map_Forall_singleton. lra.
Defined.



Section ScoreOrder.
Import ScoringService.
Local Open Scope R_scope.

Lemma map_const_replicate {A} (c : R) (l : list A) :
  map (λ _, c) l = replicate (length l) c.
Proof. induction l as [|a l IH]; cbn; [done|by rewrite IH]. Qed.

Lemma get_poi_vector_tag_count (poi poi' : POI) :
  length (tags poi) = length (tags poi') → _get_poi_vector poi = _get_poi_vector poi'.
Proof.
  intros Hlen. rewrite !get_poi_vector_positional, !map_const_replicate.
  by rewrite Hlen.
Qed.
End ScoreOrder.

(** X9. With a rating weight that is not negative, of two candidates at
    the same distance with the same number of tags the better rated one
    never gets the lower final score. *)
Theorem better_rated_candidate_scores_no_lower (self : ScoringService.t)
    (user : UserProfile) (poi poi' : POI) (d : R) :
  (0 <= ScoringService.WEIGHT_RATING self)%R →
  length (tags poi) = length (tags poi') →
  (average_rating poi <= average_rating poi')%R →
  (final_score (ScoringService.score_candidate self user (poi, d))
   <= final_score (ScoringService.score_candidate self user (poi', d)))%R.
Proof.
  intros Hw Hlen Hr.
  rewrite !final_score_of_candidate, !similarity_score_of_candidate,
    !rating_score_of_candidate, !distance_score_of_candidate.
  cbn [fst snd]. rewrite (get_poi_vector_tag_count poi poi' Hlen). nra.
Qed.

Lemma better_rated_candidate_scores_no_lower_witness :
  (final_score
     (ScoringService.score_candidate ScoringService.default_service
        Sample.nature_lover
        ({| poi_id := 5; name := "a"; location := Sample.origin;
            category := "FOOD"; average_rating := 3; tags := ["x"] |}, 10))
   <= final_score
        (ScoringService.score_candidate ScoringService.default_service
           Sample.nature_lover (Sample.poi_at_origin 1 ["nature"], 10)))%R.
Proof.
  apply better_rated_candidate_scores_no_lower; cbn; try lra. done.
Defined.

(** X31. On doubles, a user vector whose first entry is finite and
    squares to infinity on the platform makes [calculate_similarity]
    raise [OverflowError] against every non-empty POI vector, whatever
    the other entries are; with the arguments exchanged the call raises
    as well. *)
Theorem similarity_raises_on_overflowing_square (platform : Binary64.Platform)
    (s : bool) (m : positive) (e : Z) (a b : list SpecFloat.spec_float) :
  let x := SpecFloat.S754_finite s m e in
  Binary64.eqb (Binary64.fabs x) Binary64.one = false →
  Binary64.is_infinity (Binary64.libm_pow (Binary64.fabs x) (Binary64.of_Z 2))
  = true →
  b ≠ [] →
  Binary64.calculate_similarity (x :: a) b = Raised OverflowError
  ∧ returned (Binary64.calculate_similarity b (x :: a)) = None.
Proof.
  intros x Hone Hinf Hb.
  assert (Binary64.calculate_similarity (x :: a) b = Raised OverflowError) as Hraise.
  { assert (Binary64.float_pow2 x = Raised OverflowError) as Hsquare.
    { unfold Binary64.float_pow2, x. cbv zeta. fold x. by rewrite Hone, Hinf. }
    assert (∀ v, Binary64.magnitude (x :: v) = Raised OverflowError) as Hmag.
    { intros v. unfold Binary64.magnitude. cbn [mapM]. by rewrite Hsquare. }
    unfold Binary64.calculate_similarity.
    destruct b as [|p b]; [done|].
    cbn [length Nat.min take]. by rewrite Hmag. }
  split; [done|].
  by rewrite calculate_similarity64_sym, Hraise.
Qed.

Lemma similarity_raises_on_overflowing_square_witness :
  @Binary64.calculate_similarity Sample.platform
    [SpecFloat.S754_finite true 5883593420661338 612; Binary64.one]
    [Binary64.one; Binary64.one]
  = Raised OverflowError.
Proof.
  by apply (similarity_raises_on_overflowing_square Sample.platform
              true 5883593420661338 612 [Binary64.one]
              [Binary64.one; Binary64.one]).
Defined.

(** * Further properties of [generate_recommendations] *)

Section RecommendationsMore.
Import ScoringService.
Context `{GIS}.

Lemma candidate_pois_length (db : DB) (context : ContextDTO) :
  length (candidate_pois db context) ≤ length (pois db).
Proof.
  unfold candidate_pois, is_open_in_meta_fields.
  rewrite andb_false_r. cbv zeta.
  etrans; [apply length_filter|]. etrans; [apply length_filter|].
  by rewrite length_map.
Qed.

Lemma score_candidate_fields (self : t) (user : UserProfile) (pd : POI * R) :
  s_poi_id (score_candidate self user pd) = poi_id pd.1
  ∧ s_poi_name (score_candidate self user pd) = name pd.1
  ∧ s_latitude (score_candidate self user pd) = y (location pd.1)
  ∧ s_longitude (score_candidate self user pd) = x (location pd.1)
  ∧ s_category (score_candidate self user pd) = category pd.1
  ∧ s_average_rating (score_candidate self user pd) = average_rating pd.1
  ∧ s_tags (score_candidate self user pd) = tags pd.1
  ∧ distance_meters (score_candidate self user pd) = Some pd.2.
Proof. repeat split. Qed.
End RecommendationsMore.

(** X10. Every row returned by [generate_recommendations] copies a
    stored POI (id, name, coordinates, category, rating, tags) and
    carries that POI's distance from the user's point, which is at most
    the radius of the context. *)
Theorem recommendations_come_from_pois_in_radius (gis : GIS)
    (self : ScoringService.t) (db : DB) (user : UserProfile)
    (context : ContextDTO) (s : ScoredPOI) :
  s ∈ ScoringService.generate_recommendations self db user context →
  ∃ poi, poi ∈ pois db
    ∧ s_poi_id s = poi_id poi ∧ s_poi_name s = name poi
    ∧ s_latitude s = y (location poi) ∧ s_longitude s = x (location poi)
    ∧ s_category s = category poi ∧ s_average_rating s = average_rating poi
    ∧ s_tags s = tags poi
    ∧ distance_meters s
      = Some (DistanceFunc (location poi) (ScoringService.user_point context))
    ∧ (DistanceFunc (location poi) (ScoringService.user_point context)
       <= radius_meters context)%R.
Proof.
  intros Hs.
  apply elem_of_generate_recommendations in Hs as ([poi d] & Hpd & ->).
  apply elem_of_candidate_pois in Hpd as (Hin & Hd & Hr & _).
  cbn [fst snd] in *. subst d.
  exists poi. split; [done|].
  destruct (score_candidate_fields self user
              (poi, DistanceFunc (location poi) (ScoringService.user_point context)))
    as (-> & -> & -> & -> & -> & -> & -> & ->).
  done.
Qed.

Lemma recommendations_come_from_pois_in_radius_witness :
  Forall (λ s, s_tags s = ["nature"])
    (@ScoringService.generate_recommendations Sample.flat_gis
       ScoringService.default_service Sample.three_alike
       Sample.nature_lover Sample.here).
Proof.
  apply Forall_forall. intros s Hs.
  destruct (recommendations_come_from_pois_in_radius Sample.flat_gis _ _ _ _ s Hs)
    as (poi & Hin & _ & _ & _ & _ & _ & _ & -> & _).
  unfold Sample.three_alike in Hin. cbn [pois] in Hin.
  rewrite !elem_of_cons, elem_of_nil in Hin.
  by destruct Hin as [->|[->|[->|[]]]].
Defined.



(** X12. The [is_open_only] flag of the context has no effect: the
    test that guards the open-only filter is never true, so two contexts
    that differ in the flag alone get the same recommendations. *)
Theorem is_open_only_has_no_effect (gis : GIS) (self : ScoringService.t)
    (db : DB) (user : UserProfile) (location : PointDTO) (radius : R)
    (max_results : Z) (flag flag' : bool) :
  ScoringService.generate_recommendations self db user
    {| user_location := location; is_open_only := flag;
       radius_meters := radius; max_results := max_results |}
  = ScoringService.generate_recommendations self db user
      {| user_location := location; is_open_only := flag';
         radius_meters := radius; max_results := max_results |}.
Proof.
  unfold ScoringService.generate_recommendations, ScoringService.candidate_pois,
    ScoringService.is_open_in_meta_fields.
  by rewrite !andb_false_r.
Qed.

(** X13. When every stored interaction points at a stored POI,
    [update_user_vector] returns normally for every user id and every
    interaction type: an unknown user, a user without interactions of
    that type and a POI without tags all end in a plain return. *)
Theorem update_user_vector_never_raises (db : DB) (user_id : uuid)
    (interaction : InteractionType) :
  Forall (λ i, ∃ poi, poi ∈ pois db ∧ poi_id poi = i_poi i) (interactions db) →
  ∃ db' log, ScoringService.update_user_vector db user_id interaction
             = Returned (db', log).
Proof.
  intros Hfk.
  unfold ScoringService.update_user_vector, ScoringService.objects_get.
  destruct (profiles db !! user_id) as [profile|]; [|by do 2 eexists].
  destruct (ScoringService.recent_interactions db profile interaction)
    as [|i rest] eqn:Hrecent; [by do 2 eexists|].
  assert (i ∈ interactions db) as Hi.
  { assert (i ∈ ScoringService.recent_interactions db profile interaction) as Hin
      by (rewrite Hrecent; apply elem_of_cons; by left).
    unfold ScoringService.recent_interactions, sort_desc_int in Hin.
    apply subseteq_take, elem_of_sort, list_elem_of_filter in Hin.
    tauto. }
  rewrite Forall_forall in Hfk. destruct (Hfk i Hi) as (poi & Hpoi & Hid).
  unfold ScoringService.poi_of.
  destruct (list_find (λ p, poi_id p = i_poi i) (pois db)) as [[k p]|] eqn:Hfind.
  - destruct (tags p); by do 2 eexists.
  - apply list_find_None in Hfind. rewrite Forall_forall in Hfind.
    destruct (Hfind poi Hpoi Hid).
Qed.

Lemma update_user_vector_never_raises_witness :
  ∃ db' log, ScoringService.update_user_vector Sample.liked_x 7%N LIKE
             = Returned (db', log).
Proof.
  apply (update_user_vector_never_raises Sample.liked_x 7%N LIKE).
  repeat constructor. exists (Sample.poi_at_origin 1 ["x"]).
  split; [apply elem_of_cons; by left | reflexivity].
Defined.

(** * Further properties of the blacklist *)

Section BlacklistMore.
Import TrendAnalyzer.

Lemma add_hours_in_range (now : datetime) (h : Z) :
  (datetime_min ≤ now ≤ datetime_max)%Z →
  (datetime_min ≤ now + h * 3600 ≤ datetime_max)%Z →
  add_hours now h = Returned (now + h * 3600)%Z.
Proof.
  unfold add_hours, timedelta_hours, datetime_min, datetime_max,
    timedelta_max_days.
  intros Hnow Hsum.
  assert (-315537897599 ≤ h * 3600 ≤ 315537897599)%Z by lia.
  rewrite decide_True; [by rewrite decide_True|].
  split.
  - apply Z.div_le_lower_bound; lia.
  - apply Z.div_le_upper_bound; lia.
Qed.

Lemma add_hours_out_of_range (now : datetime) (h : Z) :
  ¬ (datetime_min ≤ now + h * 3600 ≤ datetime_max)%Z →
  add_hours now h = Raised OverflowError.
Proof.
  unfold add_hours, timedelta_hours. intros Hsum.
  case_decide; [|done]. by rewrite decide_False.
Qed.

Lemma add_hours_returned (now : datetime) (h : Z) (e : datetime) :
  add_hours now h = Returned e → e = (now + h * 3600)%Z.
Proof.
  unfold add_hours, timedelta_hours. repeat case_decide; congruence.
Qed.

Lemma blacklist_place_found (db : DB) (now : datetime) (id : uuid)
    (reason0 : string) (h : Z) (poi : POI) (k : nat) :
  list_find (λ p, poi_id p = id) (pois db) = Some (k, poi) →
  blacklist_place db now (Uuid id) reason0 (Hours h)
  = (expires_at0 ← add_hours now h;
     Returned
       (set_blacklist_entries db
          (<[id := {| reason := reason0;
                      bl_created_at :=
                        from_option bl_created_at now (blacklist_entries db !! id);
                      expires_at := expires_at0 |}]>
             (blacklist_entries db)),
        [POI_blacklisted_until (name poi) expires_at0])).
Proof.
  intros Hfind. unfold blacklist_place. rewrite Hfind.
  apply list_find_Some in Hfind as (_ & <- & _).
  destruct (add_hours now h); [|done]. cbn [mbind result_bind].
  by destruct (blacklist_entries db !! poi_id poi).
Qed.

Lemma blacklist_place_returned (db db' : DB) (now : datetime) (id : uuid)
    (reason0 : string) (h : Z) (log : list log_line) :
  (∃ poi, poi ∈ pois db ∧ poi_id poi = id) →
  blacklist_place db now (Uuid id) reason0 (Hours h) = Returned (db', log) →
  db' = set_blacklist_entries db
          (<[id := {| reason := reason0;
                      bl_created_at :=
                        from_option bl_created_at now (blacklist_entries db !! id);
                      expires_at := (now + h * 3600)%Z |}]>
             (blacklist_entries db)).
Proof.
  intros (poi & Hin & Hid) Hcall.
  destruct (list_find (λ p, poi_id p = id) (pois db)) as [[k p]|] eqn:Hfind.
  - rewrite (blacklist_place_found _ _ _ _ _ _ _ Hfind) in Hcall.
    destruct (add_hours now h) as [e|] eqn:Hadd; [|done].
    apply add_hours_returned in Hadd as ->.
    cbn [mbind result_bind] in Hcall. congruence.
  - apply list_find_None in Hfind. rewrite Forall_forall in Hfind.
    destruct (Hfind poi Hin Hid).
Qed.

Lemma stored_poi_found (db : DB) (id : uuid) :
  (∃ poi, poi ∈ pois db ∧ poi_id poi = id) →
  ∃ k poi, list_find (λ p, poi_id p = id) (pois db) = Some (k, poi).
Proof.
  intros (poi & Hin & Hid).
  destruct (list_find (λ p, poi_id p = id) (pois db)) as [[k p]|] eqn:Hfind;
    [by eauto|].
  apply list_find_None in Hfind. rewrite Forall_forall in Hfind.
  destruct (Hfind poi Hin Hid).
Qed.
End BlacklistMore.

(** X14. [cleanup_expired_blacklist] is idempotent: run again at the
    same moment it deletes nothing, reports 0 and leaves the tables as
    the first run left them. *)
Theorem cleanup_twice_removes_nothing (db : DB) (now : datetime) :
  TrendAnalyzer.cleanup_expired_blacklist
    (TrendAnalyzer.cleanup_expired_blacklist db now).1.1 now
  = ((TrendAnalyzer.cleanup_expired_blacklist db now).1.1, 0%Z,
     [TrendAnalyzer.Cleaned_up 0]).
Proof.
  unfold TrendAnalyzer.cleanup_expired_blacklist.
  cbn [fst TrendAnalyzer.set_blacklist_entries blacklist_entries
       pois profiles interactions trending_lists seasonal_metadata].
  assert (filter (λ kv : N * BlacklistedPOI, (expires_at kv.2 ≤ now)%Z)
            (filter (λ kv : N * BlacklistedPOI, ¬ (expires_at kv.2 ≤ now)%Z)
               (blacklist_entries db)) = ∅) as ->.
  { apply map_empty. intros i. apply map_lookup_filter_None. right.
    intros e He Hexp. apply map_lookup_filter_Some in He as [_ Hlive]. tauto. }
  rewrite map_size_empty.
  rewrite (map_filter_id (λ kv : N * BlacklistedPOI, ¬ (expires_at kv.2 ≤ now)%Z)
             (filter _ (blacklist_entries db))); [done|].
  intros i e He. by apply map_lookup_filter_Some in He as [_ Hlive].
Qed.

(** X15. The number [cleanup_expired_blacklist] reports is the number of
    rows it deleted: rows before = reported count + rows after, and no
    row that is left has [expires_at <= now]. *)
Theorem cleanup_count_is_rows_deleted (db : DB) (now : datetime) :
  let '(db', expired_count, _) := TrendAnalyzer.cleanup_expired_blacklist db now in
  Z.of_nat (size (blacklist_entries db))
  = (expired_count + Z.of_nat (size (blacklist_entries db')))%Z
  ∧ map_Forall (λ _ entry, (now < expires_at entry)%Z) (blacklist_entries db').
Proof.
  unfold TrendAnalyzer.cleanup_expired_blacklist.
  cbn [TrendAnalyzer.set_blacklist_entries blacklist_entries].
  split.
  - rewrite <- (map_filter_union_complement
                  (λ kv : N * BlacklistedPOI, (expires_at kv.2 ≤ now)%Z)
                  (blacklist_entries db)) at 1.
    rewrite map_size_disj_union by apply map_disjoint_filter_complement. lia.
  - intros i e He. apply map_lookup_filter_Some in He as [_ Hlive].
    cbn in Hlive. lia.
Qed.

(** X16. [blacklist_place] on a stored POI with an integer duration:
    when [now + duration_hours] hours lies within the range of
    [datetime] it writes one row for the POI, with the given reason,
    that expiry, and the creation time of the row it replaces (or [now]
    for a first row), and leaves the rows of other POIs and the POI,
    trend-cache and seasonal tables as they were; when the expiry lies
    outside the range it raises [OverflowError]. On an id that no
    stored POI has, nothing is written whatever the duration is. *)
Theorem blacklist_place_upserts (db : DB) (now : datetime) (id : uuid)
    (reason0 : string) (duration_hours : Z) :
  ((∃ poi, poi ∈ pois db ∧ poi_id poi = id) →
   (datetime_min ≤ now ≤ datetime_max)%Z →
   (datetime_min ≤ now + duration_hours * 3600 ≤ datetime_max)%Z →
   ∃ db' log,
     TrendAnalyzer.blacklist_place db now (Uuid id) reason0 (Hours duration_hours)
     = Returned (db', log)
     ∧ blacklist_entries db' !! id
       = Some {| reason := reason0;
                 bl_created_at :=
                   from_option bl_created_at now (blacklist_entries db !! id);
                 expires_at := (now + duration_hours * 3600)%Z |}
     ∧ (∀ other, other ≠ id →
          blacklist_entries db' !! other = blacklist_entries db !! other)
     ∧ pois db' = pois db ∧ trending_lists db' = trending_lists db
     ∧ seasonal_metadata db' = seasonal_metadata db)
  ∧ ((∃ poi, poi ∈ pois db ∧ poi_id poi = id) →
     ¬ (datetime_min ≤ now + duration_hours * 3600 ≤ datetime_max)%Z →
     TrendAnalyzer.blacklist_place db now (Uuid id) reason0 (Hours duration_hours)
     = Raised OverflowError)
  ∧ ((∀ poi, poi ∈ pois db → poi_id poi ≠ id) →
     ∀ duration,
       TrendAnalyzer.blacklist_place db now (Uuid id) reason0 duration
       = Returned (db, [TrendAnalyzer.POI_not_found id])).
Proof.
  split; [|split].
  - intros Hstored Hnow Hsum.
    apply stored_poi_found in Hstored as (k & poi & Hfind).
    rewrite (blacklist_place_found _ _ _ _ _ _ _ Hfind).
    rewrite add_hours_in_range by done. cbn [mbind result_bind].
    do 2 eexists. split; [done|].
    cbn [TrendAnalyzer.set_blacklist_entries blacklist_entries pois
         trending_lists seasonal_metadata].
    rewrite lookup_insert_eq. split; [done|]. split; [|done].
    intros other Hne. by rewrite lookup_insert_ne.
  - intros Hstored Hsum.
    apply stored_poi_found in Hstored as (k & poi & Hfind).
    rewrite (blacklist_place_found _ _ _ _ _ _ _ Hfind).
    by rewrite add_hours_out_of_range.
  - intros Hnone duration. unfold TrendAnalyzer.blacklist_place.
    destruct (list_find (λ p, poi_id p = id) (pois db)) as [[k p]|] eqn:Hfind;
      [|done].
    apply list_find_Some in Hfind as (Hk & Hid & _).
    destruct (Hnone p); [by eapply list_elem_of_lookup_2|done].
Qed.

Lemma blacklist_place_upserts_witness :
  TrendAnalyzer.blacklist_place Sample.stale_blacklist 500 (Uuid 1%N) "again"
    (Hours 100000000)
  = Raised OverflowError.
Proof.
  destruct (blacklist_place_upserts Sample.stale_blacklist 500 1%N "again"
              100000000) as (_ & Hraise & _).
  apply Hraise.
  - exists (Sample.poi_at_origin 1 ["nature"]).
    split; [apply elem_of_cons; by left | reflexivity].
  - unfold datetime_max. lia.
Defined.

(** X17. After a call of [blacklist_place] for a stored POI that
    returned, no row of [generate_recommendations] carries the POI's
    id, for any duration the call accepted (also zero or negative), any
    user and any context. *)
Theorem blacklisted_poi_is_not_recommended (gis : GIS)
    (self : ScoringService.t) (db db' : DB) (now : datetime) (id : uuid)
    (reason0 : string) (duration_hours : Z) (log : list TrendAnalyzer.log_line)
    (user : UserProfile) (context : ContextDTO) :
  (∃ poi, poi ∈ pois db ∧ poi_id poi = id) →
  TrendAnalyzer.blacklist_place db now (Uuid id) reason0 (Hours duration_hours)
  = Returned (db', log) →
  ∀ s, s ∈ ScoringService.generate_recommendations self db' user context →
       s_poi_id s ≠ id.
Proof.
  intros Hstored Hcall s Hs Hid.
  rewrite (blacklist_place_returned _ _ _ _ _ _ _ Hstored Hcall) in Hs.
  apply elem_of_generate_recommendations in Hs as (pd & Hpd & ->).
  rewrite score_candidate_id in Hid.
  apply elem_of_candidate_pois in Hpd as (_ & _ & _ & Hb).
  cbn [TrendAnalyzer.set_blacklist_entries blacklist_entries] in Hb.
  by rewrite Hid, lookup_insert_eq in Hb.
Qed.

Lemma blacklisted_poi_is_not_recommended_witness :
  match TrendAnalyzer.blacklist_place Sample.three_alike 0 (Uuid 2%N) "spike"
          (Hours 1) with
  | Returned (db', _) =>
      Forall (λ s, s_poi_id s ≠ 2%N)
        (@ScoringService.generate_recommendations Sample.flat_gis
           ScoringService.default_service db' Sample.nature_lover Sample.here)
  | Raised _ => False
  end.
Proof.
  assert (∃ poi, poi ∈ pois Sample.three_alike ∧ poi_id poi = 2%N) as Hstored.
  { exists (Sample.poi_at_origin 2 ["nature"]).
    split; [apply elem_of_cons; by left | reflexivity]. }
  destruct (TrendAnalyzer.blacklist_place Sample.three_alike 0 (Uuid 2%N) "spike"
              (Hours 1)) as [[db' log]|e] eqn:Hcall.
  - apply Forall_forall.
    exact (blacklisted_poi_is_not_recommended Sample.flat_gis _ _ _ _ _ _ _ _
             _ _ Hstored Hcall).
  - destruct (blacklist_place_upserts Sample.three_alike 0 2%N "spike" 1)
      as (Hok & _).
    destruct Hok as (? & ? & Hret & _);
      [done | unfold datetime_min, datetime_max; lia
       | unfold datetime_min, datetime_max; lia |].
    congruence.
Defined.

(** X18. A row written by a call of [blacklist_place] at [now] for
    [duration_hours] hours survives every sweep run before
    [now + duration_hours] hours and is deleted by every sweep run at or
    after that moment; with a zero or negative duration the first sweep
    deletes it. *)
Theorem blacklist_row_lifetime (db db' : DB) (now sweep : datetime) (id : uuid)
    (reason0 : string) (duration_hours : Z) (log : list TrendAnalyzer.log_line) :
  (∃ poi, poi ∈ pois db ∧ poi_id poi = id) →
  TrendAnalyzer.blacklist_place db now (Uuid id) reason0 (Hours duration_hours)
  = Returned (db', log) →
  let swept := (TrendAnalyzer.cleanup_expired_blacklist db' sweep).1.1 in
  ((sweep < now + duration_hours * 3600)%Z →
   blacklist_entries swept !! id = blacklist_entries db' !! id
   ∧ is_Some (blacklist_entries swept !! id))
  ∧ ((now + duration_hours * 3600 ≤ sweep)%Z →
     blacklist_entries swept !! id = None).
Proof.
  intros Hstored Hcall swept.
  unfold swept. rewrite cleanup_lookup.
  rewrite (blacklist_place_returned _ _ _ _ _ _ _ Hstored Hcall).
  cbn [TrendAnalyzer.set_blacklist_entries blacklist_entries].
  rewrite lookup_insert_eq. cbn [expires_at].
  split; intros Ht.
  - rewrite decide_False by lia. split; [done|by eexists].
  - by rewrite decide_True by lia.
Qed.

Lemma blacklist_row_lifetime_witness :
  match TrendAnalyzer.blacklist_place Sample.three_alike 0 (Uuid 2%N) "spike"
          (Hours 1) with
  | Returned (db', _) =>
      blacklist_entries
        (TrendAnalyzer.cleanup_expired_blacklist db' 3600).1.1 !! 2%N = None
  | Raised _ => True
  end.
Proof.
  destruct (TrendAnalyzer.blacklist_place Sample.three_alike 0 (Uuid 2%N) "spike"
              (Hours 1)) as [[db' log]|e] eqn:Hcall; [|done].
  apply (blacklist_row_lifetime Sample.three_alike db' 0 3600 2%N "spike" 1 log).
  - exists (Sample.poi_at_origin 2 ["nature"]).
    split; [apply elem_of_cons; by left | reflexivity].
  - exact Hcall.
  - lia.
Defined.

(** * Further properties of the trending cache *)

Section TrendingMore.
Import TrendAnalyzer.
Context `{GIS}.

Lemma map_is_fmap {A B} (f : A → B) (l : list A) : map f l = f <$> l.
Proof. reflexivity. Qed.

Lemma get_trending_now_recomputes (self : t) (db : DB) (now : datetime)
    (geohash : string) :
  (∀ row, trending_lists db !! geohash = Some row →
          (CACHE_TTL self ≤ now - tl_updated_at row)%Z) →
  get_trending_now self db now geohash = recompute_trending db now geohash.
Proof.
  intros Hstale. unfold get_trending_now.
  destruct (trending_lists db !! geohash) as [row|]; [|done].
  rewrite decide_False; [done|]. specialize (Hstale row eq_refl). lia.
Qed.

Lemma get_trending_now_hit (self : t) (db : DB) (now : datetime)
    (geohash : string) (row : TrendingList) :
  trending_lists db !! geohash = Some row →
  (now - tl_updated_at row < CACHE_TTL self)%Z →
  get_trending_now self db now geohash
  = (db, filter (λ poi, poi_id poi ∈ tl_pois row) (pois db)).
Proof.
  intros Hrow Hfresh. unfold get_trending_now. rewrite Hrow.
  by rewrite decide_True.
Qed.

Lemma upsert_trending_lookup (db : DB) (now : datetime) (geohash : string)
    (ids : list uuid) :
  ∃ row, trending_lists (upsert_trending db now geohash ids) !! geohash = Some row
         ∧ tl_pois row = ids ∧ tl_updated_at row = now.
Proof.
  unfold upsert_trending. cbn [set_trending_lists trending_lists].
  rewrite lookup_insert_eq. eexists. split; [done|].
  by destruct (trending_lists db !! geohash).
Qed.

Lemma trending_query_annotation (db : DB) (now : datetime) (geohash : string) :
  Forall (λ r, r.1 ∈ pois db
               ∧ location_within (_get_bbox_polygon (bounds_of geohash))
                   (location r.1)
               ∧ recent_of db (now - timedelta_hours 24) r.1 ≠ []
               ∧ r.2 = Z.of_nat (length (recent_of db (now - timedelta_hours 24) r.1)))
    (trending_query db now geohash).
Proof.
  unfold trending_query. cbv zeta. apply Forall_take.
  apply Forall_forall. intros r Hr.
  unfold sort_desc_int in Hr. apply elem_of_sort in Hr.
  rewrite map_is_fmap in Hr.
  apply list_elem_of_fmap in Hr as (poi & -> & Hpoi).
  apply list_elem_of_filter in Hpoi as [[Hw Hne] Hin]. by cbn.
Qed.

Lemma trending_query_sorted (db : DB) (now : datetime) (geohash : string) :
  StronglySorted (λ a b : POI * Z, (b.2 ≤ a.2)%Z) (trending_query db now geohash).
Proof.
  unfold trending_query. cbv zeta.
  set (l := sort_desc_int snd _).
  assert (StronglySorted (λ a b : POI * Z, (b.2 ≤ a.2)%Z) l) as Hl.
  { apply sort_sorted.
    - intros a b Hlt. apply Z.ltb_lt in Hlt. lia.
    - intros a b Hlt. apply Z.ltb_ge in Hlt. lia.
    - intros a b c ??. lia. }
  rewrite <- (take_drop 20 l) in Hl. by apply StronglySorted_app_l in Hl.
Qed.

Lemma trending_query_NoDup (db : DB) (now : datetime) (geohash : string) :
  NoDup (pois db) → NoDup (map fst (trending_query db now geohash)).
Proof.
  intros Hnd. unfold trending_query. cbv zeta.
  rewrite <- firstn_map. eapply sublist_NoDup; [|apply sublist_take].
  unfold sort_desc_int. rewrite map_is_fmap, sort_perm, <- map_is_fmap.
  rewrite map_map. cbn [fst]. rewrite map_id. by apply NoDup_filter.
Qed.

Lemma NoDup_fmap_eq {A B} (f : A → B) (l : list A) (a b : A) :
  NoDup (f <$> l) → a ∈ l → b ∈ l → f a = f b → a = b.
Proof.
  induction l as [|c l IH]; intros Hnd Ha Hb Hf; [by apply elem_of_nil in Ha|].
  rewrite fmap_cons in Hnd. apply NoDup_cons in Hnd as [Hc Hnd].
  apply elem_of_cons in Ha as [->|Ha]; apply elem_of_cons in Hb as [->|Hb].
  - done.
  - destruct Hc. rewrite Hf. by apply list_elem_of_fmap_2.
  - destruct Hc. rewrite <- Hf. by apply list_elem_of_fmap_2.
  - by apply IH.
Qed.
End TrendingMore.

(** X19. When an area has no cache row, or one that is [CACHE_TTL]
    seconds old or older, [get_trending_now] recomputes: it returns at
    most 20 stored POIs, each inside the area's box with at least one
    interaction in the last 24 hours, ordered by the number of those
    interactions, largest first; and it leaves a cache row for the area
    holding the returned ids in that order, stamped [now]. *)
Theorem trending_recompute_result (gis : GIS) (self : TrendAnalyzer.t)
    (db : DB) (now : datetime) (geohash : string) :
  (∀ row, trending_lists db !! geohash = Some row →
          (TrendAnalyzer.CACHE_TTL self ≤ now - tl_updated_at row)%Z) →
  let recent poi :=
    Z.of_nat (length (TrendAnalyzer.recent_of db (now - 24 * 3600) poi)) in
  let '(db', result) := TrendAnalyzer.get_trending_now self db now geohash in
  length result ≤ 20
  ∧ Forall (λ poi, poi ∈ pois db
                   ∧ TrendAnalyzer.location_within
                       (TrendAnalyzer._get_bbox_polygon
                          (TrendAnalyzer.bounds_of geohash)) (location poi)
                   ∧ (1 ≤ recent poi)%Z) result
  ∧ StronglySorted (λ p q, (recent q ≤ recent p)%Z) result
  ∧ (∃ row, trending_lists db' !! geohash = Some row
            ∧ tl_pois row = map poi_id result ∧ tl_updated_at row = now)
  ∧ pois db' = pois db ∧ interactions db' = interactions db.
Proof.
  intros Hstale recent.
  rewrite get_trending_now_recomputes by done.
  unfold TrendAnalyzer.recompute_trending.
  pose proof (trending_query_annotation db now geohash) as Hann.
  pose proof (trending_query_sorted db now geohash) as Hsorted.
  assert (length (TrendAnalyzer.trending_query db now geohash) ≤ 20) as Hlen.
  { unfold TrendAnalyzer.trending_query. cbv zeta. rewrite length_take. lia. }
  set (T := TrendAnalyzer.trending_query db now geohash) in *.
  split; [by rewrite length_map|].
  split.
  { apply Forall_forall. intros poi Hpoi.
    rewrite map_is_fmap in Hpoi.
    apply list_elem_of_fmap in Hpoi as (r & -> & Hr).
    rewrite Forall_forall in Hann. destruct (Hann r Hr) as (Hin & Hw & Hne & _).
    split; [done|]. split; [done|].
    unfold recent. change (24 * 3600)%Z with (timedelta_hours 24).
    destruct (TrendAnalyzer.recent_of db (now - timedelta_hours 24) r.1);
      [done|cbn [length]; lia]. }
  split.
  { clear Hlen. induction T as [|r T IH]; [constructor|].
    apply StronglySorted_inv in Hsorted as [HsT Hr].
    apply Forall_cons in Hann as [Hr0 Hann].
    cbn [map]. constructor; [by apply IH|].
    apply Forall_forall. intros q Hq.
    rewrite map_is_fmap in Hq. apply list_elem_of_fmap in Hq as (r' & -> & Hr').
    rewrite Forall_forall in Hr, Hann.
    specialize (Hr r' Hr'). destruct (Hann r' Hr') as (_ & _ & _ & Hc').
    destruct Hr0 as (_ & _ & _ & Hc).
    unfold recent. change (24 * 3600)%Z with (timedelta_hours 24). lia. }
  split; [|done].
  unfold TrendAnalyzer.upsert_trending.
  cbn [TrendAnalyzer.set_trending_lists trending_lists].
  rewrite lookup_insert_eq. eexists. split; [done|].
  rewrite map_map.
  by destruct (trending_lists db !! geohash).
Qed.

Lemma trending_recompute_result_witness :
  length (@TrendAnalyzer.get_trending_now Sample.flat_gis
            TrendAnalyzer.default_analyzer Sample.busy_day 100000 "u").2 ≤ 20.
Proof.
  pose proof (trending_recompute_result Sample.flat_gis
                TrendAnalyzer.default_analyzer Sample.busy_day 100000 "u") as Hx.
  cbv zeta in Hx.
  destruct (@TrendAnalyzer.get_trending_now Sample.flat_gis
              TrendAnalyzer.default_analyzer Sample.busy_day 100000 "u")
    as [db' result].
  apply Hx. intros row Hrow. discriminate Hrow.
Defined.

(** X20. After a recompute at [now], a call for the same area at any
    moment from [now] up to, but not including, [now + CACHE_TTL] is
    answered from the cache: it writes nothing and, the POI ids being
    unique, returns the same POIs as the recompute did, possibly in
    another order. *)
Theorem trending_cache_hit_same_pois (gis : GIS) (self : TrendAnalyzer.t)
    (db : DB) (now now' : datetime) (geohash : string) :
  (∀ row, trending_lists db !! geohash = Some row →
          (TrendAnalyzer.CACHE_TTL self ≤ now - tl_updated_at row)%Z) →
  NoDup (map poi_id (pois db)) →
  (now ≤ now' < now + TrendAnalyzer.CACHE_TTL self)%Z →
  let first := TrendAnalyzer.get_trending_now self db now geohash in
  let second := TrendAnalyzer.get_trending_now self first.1 now' geohash in
  second.1 = first.1 ∧ second.2 ≡ₚ first.2.
Proof.
  intros Hstale Hids Hnow. cbv zeta.
  rewrite (get_trending_now_recomputes self db now geohash Hstale).
  unfold TrendAnalyzer.recompute_trending. cbn [fst snd].
  set (T := TrendAnalyzer.trending_query db now geohash).
  destruct (upsert_trending_lookup db now geohash (map (λ r : POI * Z, poi_id r.1) T))
    as (row & Hrow & Hids' & Hupd).
  rewrite (get_trending_now_hit self _ now' geohash row Hrow)
    by (rewrite Hupd; lia).
  cbn [fst snd]. split; [done|].
  rewrite Hids'. cbn [pois TrendAnalyzer.upsert_trending
                      TrendAnalyzer.set_trending_lists].
  assert (NoDup (pois db)) as Hnd by (by apply (NoDup_fmap_1 poi_id)).
  pose proof (trending_query_NoDup db now geohash Hnd) as HndT. fold T in HndT.
  pose proof (trending_query_annotation db now geohash) as Hann. fold T in Hann.
  apply NoDup_Permutation; [by apply NoDup_filter | done |].
  intros poi. rewrite list_elem_of_filter. split.
  - intros [Hid Hin].
    rewrite map_is_fmap in Hid. apply list_elem_of_fmap in Hid as (r & Hid & Hr).
    rewrite Forall_forall in Hann. destruct (Hann r Hr) as (Hrin & _).
    assert (poi = r.1) as -> by (by eapply (NoDup_fmap_eq poi_id)).
    rewrite map_is_fmap. by apply list_elem_of_fmap_2.
  - intros Hpoi. rewrite map_is_fmap in Hpoi.
    apply list_elem_of_fmap in Hpoi as (r & -> & Hr).
    rewrite Forall_forall in Hann. destruct (Hann r Hr) as (Hrin & _).
    split; [|done]. rewrite map_is_fmap.
    by apply (list_elem_of_fmap_2 (λ r : POI * Z, poi_id r.1)).
Qed.

Lemma trending_cache_hit_same_pois_witness :
  (@TrendAnalyzer.get_trending_now Sample.flat_gis TrendAnalyzer.default_analyzer
     (@TrendAnalyzer.get_trending_now Sample.flat_gis
        TrendAnalyzer.default_analyzer Sample.busy_day 100000 "u").1
     100060 "u").2
  ≡ₚ (@TrendAnalyzer.get_trending_now Sample.flat_gis
        TrendAnalyzer.default_analyzer Sample.busy_day 100000 "u").2.
Proof.
  apply (trending_cache_hit_same_pois Sample.flat_gis
           TrendAnalyzer.default_analyzer Sample.busy_day 100000 100060 "u").
  - intros row Hrow. discriminate Hrow.
  - cbn. apply NoDup_cons. split; [|apply NoDup_singleton].
    intros Hin. apply elem_of_cons in Hin as [Hin|Hin]; [discriminate|].
    by apply elem_of_nil in Hin.
  - cbn. lia.
Defined.

(** * Further properties of the seasonal analysis and the review queries *)

Section SeasonalMore.
Import TrendAnalyzer.
Context `{Calendar}.

Lemma DB_ext (a b : DB) :
  pois a = pois b → profiles a = profiles b → interactions a = interactions b →
  trending_lists a = trending_lists b →
  blacklist_entries a = blacklist_entries b →
  seasonal_metadata a = seasonal_metadata b → a = b.
Proof. destruct a, b. cbn. by intros -> -> -> -> -> ->. Qed.

Lemma analyze_fold_tables (now : datetime) (ps : list POI) (db : DB) :
  let db' := fold_left (analyze_poi now) ps db in
  pois db' = pois db ∧ profiles db' = profiles db
  ∧ interactions db' = interactions db
  ∧ trending_lists db' = trending_lists db
  ∧ blacklist_entries db' = blacklist_entries db.
Proof.
  cbv zeta. revert db. induction ps as [|p ps IH]; intros db; [done|].
  cbn [fold_left]. destruct (IH (analyze_poi now db p)) as (-> & -> & -> & -> & ->).
  unfold analyze_poi. by destruct (interactions_of db (poi_id p)).
Qed.

Lemma fold_increment_total (l : list Interaction) (counts : Season → Z) :
  let counts' :=
    fold_left
      (λ season_counts interaction,
         increment season_counts (season_of (month (timestamp interaction))))
      l counts in
  (counts' SPRING + counts' SUMMER + counts' FALL + counts' WINTER
   = counts SPRING + counts SUMMER + counts FALL + counts WINTER
     + Z.of_nat (length l))%Z
  ∧ ∀ s, (counts s ≤ counts' s)%Z.
Proof.
  cbv zeta. revert counts. induction l as [|i l IH]; intros counts.
  - cbn. split; [lia|done].
  - cbn [fold_left length].
    destruct (IH (increment counts (season_of (month (timestamp i)))))
      as [Hsum Hmono].
    split.
    + rewrite Hsum. unfold increment.
      destruct (season_of (month (timestamp i)));
        repeat case_decide; try done; lia.
    + intros s. etrans; [|apply Hmono]. unfold increment. case_decide; lia.
Qed.
End SeasonalMore.

(** X21. The four counters [analyze_seasonal_trends] stores for a POI
    are never negative and add up to the number of that POI's
    interactions, whatever months the timestamps carry: every
    interaction is counted in exactly one season. *)
Theorem seasonal_counters_add_up (cal : Calendar) (db : DB)
    (now : datetime) (poi : POI) :
  poi ∈ pois db →
  TrendAnalyzer.interactions_of db (poi_id poi) ≠ [] →
  ∃ md,
    seasonal_metadata (TrendAnalyzer.analyze_seasonal_trends db now).1
      !! poi_id poi = Some md
    ∧ (visit_count_spring md + visit_count_summer md
       + visit_count_fall md + visit_count_winter md
       = Z.of_nat (length (TrendAnalyzer.interactions_of db (poi_id poi))))%Z
    ∧ ∀ s, (0 ≤ visit_count md s)%Z.
Proof.
  intros Hpoi Hne.
  unfold TrendAnalyzer.analyze_seasonal_trends. cbn [fst].
  rewrite analyze_fold_lookup.
  rewrite decide_True
    by (split; [by apply list_elem_of_fmap_2 with (f := poi_id) | done]).
  eexists. split; [done|].
  destruct (fold_increment_total
              (TrendAnalyzer.interactions_of db (poi_id poi))
              TrendAnalyzer.season_counts_init) as [Hsum Hmono].
  split.
  - cbn [TrendAnalyzer.seasonal_row visit_count_spring visit_count_summer
         visit_count_fall visit_count_winter].
    unfold TrendAnalyzer.count_by_season. rewrite Hsum.
    unfold TrendAnalyzer.season_counts_init. lia.
  - intros s. rewrite visit_count_seasonal_row.
    unfold TrendAnalyzer.count_by_season.
    etrans; [|apply Hmono]. done.
Qed.

Lemma seasonal_counters_add_up_witness :
  ∃ md,
    seasonal_metadata
      (@TrendAnalyzer.analyze_seasonal_trends utc_calendar Sample.busy_day 100000).1
      !! 2%N = Some md
    ∧ (visit_count_spring md + visit_count_summer md
       + visit_count_fall md + visit_count_winter md = 2)%Z.
Proof.
  destruct (seasonal_counters_add_up utc_calendar Sample.busy_day 100000
              (Sample.poi_at_origin 2 ["food"]))
    as (md & Hmd & Hsum & _).
  - apply elem_of_cons. right. apply elem_of_cons. by left.
  - vm_compute. discriminate.
  - exists md. split; [exact Hmd|]. rewrite Hsum. reflexivity.
Defined.

(** X22. [analyze_seasonal_trends] writes seasonal records only: the
    POI, profile, interaction, trend-cache and blacklist tables are left
    as they were, and a POI without interactions keeps the seasonal
    record it had, or none. *)
Theorem seasonal_analysis_touches_only_active_pois (cal : Calendar)
    (db : DB) (now : datetime) :
  let db' := (TrendAnalyzer.analyze_seasonal_trends db now).1 in
  pois db' = pois db ∧ profiles db' = profiles db
  ∧ interactions db' = interactions db
  ∧ trending_lists db' = trending_lists db
  ∧ blacklist_entries db' = blacklist_entries db
  ∧ ∀ id, TrendAnalyzer.interactions_of db id = [] →
          seasonal_metadata db' !! id = seasonal_metadata db !! id.
Proof.
  cbv zeta. unfold TrendAnalyzer.analyze_seasonal_trends. cbn [fst].
  destruct (analyze_fold_tables now (pois db) db) as (-> & -> & -> & -> & ->).
  repeat (split; [done|]).
  intros id Hnone. rewrite analyze_fold_lookup.
  rewrite decide_False; [done|]. tauto.
Qed.

Lemma seasonal_analysis_touches_only_active_pois_witness :
  seasonal_metadata
    (@TrendAnalyzer.analyze_seasonal_trends utc_calendar Sample.stale_blacklist 5).1
  !! 1%N = None.
Proof.
  destruct (seasonal_analysis_touches_only_active_pois utc_calendar
              Sample.stale_blacklist 5) as (_ & _ & _ & _ & _ & Hkeep).
  rewrite Hkeep; reflexivity.
Defined.

(** X23. [analyze_seasonal_trends] is a full recompute: running it a
    second time at the same moment, with no interaction recorded in
    between, leaves every table exactly as the first run left it. *)
Theorem seasonal_analysis_idempotent (cal : Calendar) (db : DB) (now : datetime) :
  (TrendAnalyzer.analyze_seasonal_trends
     (TrendAnalyzer.analyze_seasonal_trends db now).1 now).1
  = (TrendAnalyzer.analyze_seasonal_trends db now).1.
Proof.
  unfold TrendAnalyzer.analyze_seasonal_trends. cbn [fst].
  set (db1 := fold_left (TrendAnalyzer.analyze_poi now) (pois db) db).
  destruct (analyze_fold_tables now (pois db) db) as (Hp & Hpr & Hi & Ht & Hb).
  fold db1 in Hp, Hpr, Hi, Ht, Hb.
  destruct (analyze_fold_tables now (pois db1) db1) as (Hp2 & Hpr2 & Hi2 & Ht2 & Hb2).
  apply DB_ext; try done.
  apply map_eq. intros id. rewrite analyze_fold_lookup.
  assert (TrendAnalyzer.interactions_of db1 id = TrendAnalyzer.interactions_of db id)
    as -> by (unfold TrendAnalyzer.interactions_of; by rewrite Hi).
  rewrite Hp. case_decide as Hc; [|done].
  unfold db1. rewrite analyze_fold_lookup. by rewrite decide_True.
Qed.

(** X24. [get_underrated_places] returns exactly the stored POIs that
    lie inside the area's box, are rated at least [HIGH_RATING_FLOOR]
    and have fewer than [UNDERRATED_THRESHOLD] reviews, and returns them
    ordered by rating, best first. *)
Theorem underrated_places_are_exactly_the_hidden_gems (gis : GIS)
    (self : TrendAnalyzer.t) (db : DB) (reviews : list Review)
    (geohash : string) :
  (∀ poi,
     poi ∈ TrendAnalyzer.get_underrated_places self db reviews geohash
     ↔ poi ∈ pois db
       ∧ (TrendAnalyzer.HIGH_RATING_FLOOR self <= average_rating poi)%R
       ∧ (Z.of_nat (length (filter (λ r, r_poi r = poi_id poi) reviews))
          < TrendAnalyzer.UNDERRATED_THRESHOLD self)%Z
       ∧ TrendAnalyzer.location_within
           (TrendAnalyzer._get_bbox_polygon (TrendAnalyzer.bounds_of geohash))
           (location poi))
  ∧ StronglySorted (λ p q, (average_rating p >= average_rating q)%R)
      (TrendAnalyzer.get_underrated_places self db reviews geohash).
Proof.
  unfold TrendAnalyzer.get_underrated_places. cbv zeta. split.
  - intros poi. unfold sort_desc_float.
    rewrite elem_of_sort, list_elem_of_filter.
    unfold TrendAnalyzer.review_count. tauto.
  - apply sort_desc_float_sorted.
Qed.

Section ReviewCounts.
Lemma length_filter_mono {A} (P Q : A → Prop) `{!∀ x, Decision (P x)}
    `{!∀ x, Decision (Q x)} (l : list A) :
  (∀ x, P x → Q x) → length (filter P l) ≤ length (filter Q l).
Proof.
  intros HPQ. induction l as [|a l IH]; [done|].
  rewrite !filter_cons.
  destruct (decide (P a)) as [Ha|Ha].
  - rewrite decide_True by auto. cbn. lia.
  - case_decide; cbn; lia.
Qed.
End ReviewCounts.

(** X25. [get_negative_feedback_count] grows with the window: a longer
    look-back never counts fewer reviews, it never counts more than the
    POI has reviews, and a review rated exactly 3.0 or better is never
    counted. *)
Theorem negative_feedback_count_window (reviews : list Review)
    (now : datetime) (id : uuid) (hours hours' : Z) :
  (hours ≤ hours')%Z →
  (0 ≤ TrendAnalyzer.get_negative_feedback_count reviews now id hours
   ≤ TrendAnalyzer.get_negative_feedback_count reviews now id hours')%Z
  ∧ (TrendAnalyzer.get_negative_feedback_count reviews now id hours'
     ≤ Z.of_nat (length (filter (λ r, r_poi r = id ∧ (r_rating r < 3)%R) reviews)))%Z.
Proof.
  intros Hh. unfold TrendAnalyzer.get_negative_feedback_count, timedelta_hours.
  cbv zeta. split; [split; [lia|]|].
  - apply inj_le, length_filter_mono. intros r (? & ? & ?).
    repeat split; [done..|lia].
  - apply inj_le, length_filter_mono. tauto.
Qed.

Lemma negative_feedback_count_window_witness :
  (TrendAnalyzer.get_negative_feedback_count
     [ {| r_user := 7; r_poi := 2; r_rating := 2; r_created_at := 90000 |} ]
     100000 2%N 1
   ≤ TrendAnalyzer.get_negative_feedback_count
       [ {| r_user := 7; r_poi := 2; r_rating := 2; r_created_at := 90000 |} ]
       100000 2%N 24)%Z.
Proof.
  apply (negative_feedback_count_window
           [ {| r_user := 7; r_poi := 2; r_rating := 2; r_created_at := 90000 |} ]
           100000 2%N 1 24).
  lia.
Defined.

(** * Properties of the views *)

Section ViewsFacts.
Import Views.

Lemma context_errors_nil (c : ContextData) :
  context_errors c = [] →
  ∃ context, to_context c = Some context
    ∧ (-90 <= latitude (user_location context) <= 90)%R
    ∧ (-180 <= longitude (user_location context) <= 180)%R
    ∧ radius_meters context = default 5000%R (cd_radius_meters c)
    ∧ (100 <= radius_meters context)%R
    ∧ max_results context = default 10%Z (cd_max_results c)
    ∧ (1 ≤ max_results context ≤ 100)%Z.
Proof.
  unfold context_errors, to_context. intros Herr.
  apply app_eq_nil in Herr as [Hloc Herr]. apply app_eq_nil in Herr as [Hrad Hmax].
  destruct (cd_user_location c) as [p|]; [|done].
  destruct (point_errors p) eqn:Hp; [|done].
  unfold point_errors in Hp. apply app_eq_nil in Hp as [Hlat Hlon].
  destruct (pd_latitude p) as [lat|] eqn:Elat; [|done].
  destruct (pd_longitude p) as [lon|] eqn:Elon; [|done].
  case_decide as Hlatb; [|done]. case_decide as Hlonb; [|done].
  cbn. rewrite Elat. cbn. rewrite Elon. cbn.
  eexists. split; [done|]. cbn.
  split; [lra|]. split; [lra|]. split; [done|].
  split.
  - destruct (cd_radius_meters c) as [r|]; cbn; [|lra]. by case_decide.
  - split; [done|].
    destruct (cd_max_results c) as [n|]; cbn; [|lia]. case_decide; [lia|done].
Qed.
End ViewsFacts.

(** X26. A 200 answer of [GenerateRecommendationsView.post] carries a
    recommendation list of at most [max_results] rows, 10 when the
    request names no [max_results], and never more than 100; every row
    lies within the requested radius, 5000 m when none is named. *)
Theorem generate_post_ok_is_bounded (gis : GIS) (db : DB)
    (user_id : option id_value) (context_data : option Views.ContextData)
    (response : Views.Response) :
  Views.generate_post db user_id context_data = Returned response →
  Views.status response = 200%Z →
  ∃ c recommendations,
    context_data = Some c
    ∧ Views.data response = Views.Recommendations recommendations
    ∧ (Z.of_nat (length recommendations)
       ≤ default 10 (Views.cd_max_results c) ≤ 100)%Z
    ∧ Forall (λ s, ∃ d, distance_meters s = Some d
                        ∧ (d <= default 5000 (Views.cd_radius_meters c))%R)
        recommendations.
Proof.
  unfold Views.generate_post. intros Hcall Hok.
  destruct user_id as [uid|]; [|by injection Hcall as <-].
  destruct (Views.context_missing context_data) eqn:Hmiss;
    [by injection Hcall as <-|].
  destruct context_data as [c|]; [|done].
  cbn [default from_option Datatypes.id] in *.
  destruct (Views.context_errors c) as [|e errors] eqn:Herr;
    [|by injection Hcall as <-].
  destruct (context_errors_nil c Herr)
    as (context & Hctx & _ & _ & Hrad & _ & Hmax & Hrange).
  rewrite Hctx in *.
  destruct uid as [id|]; [|done].
  destruct (ScoringService.objects_get db id) as [user|e];
    [|by destruct e; try done; injection Hcall as <-].
  injection Hcall as <-.
  cbn [Views.data]. exists c. eexists. split; [done|]. split; [done|].
  rewrite <- Hmax, <- Hrad. split.
  - split; [|lia].
    unfold ScoringService.generate_recommendations.
    apply slice_to_length. lia.
  - apply Forall_forall. intros s Hs.
    apply elem_of_generate_recommendations in Hs as (pd & Hpd & ->).
    apply elem_of_candidate_pois in Hpd as (_ & _ & Hr & _).
    exists pd.2. split; [|done].
    by destruct (score_candidate_fields ScoringService.default_service user pd)
      as (_ & _ & _ & _ & _ & _ & _ & ->).
Qed.

Lemma generate_post_ok_is_bounded_witness :
  ∃ c recommendations,
    Some {| Views.cd_user_location :=
              Some {| Views.pd_latitude := Some 0%R;
                      Views.pd_longitude := Some 0%R |};
            Views.cd_time_of_day := None; Views.cd_is_open_only := None;
            Views.cd_radius_meters := None; Views.cd_max_results := Some 2%Z |}
    = Some c
    ∧ Views.data
        {| Views.data :=
             Views.Recommendations
               (@ScoringService.generate_recommendations Sample.flat_gis
                  ScoringService.default_service Sample.three_alike
                  Sample.nature_lover
                  {| user_location := {| latitude := 0; longitude := 0 |};
                     is_open_only := true; radius_meters := 5000;
                     max_results := 2 |});
           Views.status := 200 |}
      = Views.Recommendations recommendations
    ∧ (Z.of_nat (length recommendations)
       ≤ default 10 (Views.cd_max_results c) ≤ 100)%Z
    ∧ Forall (λ s, ∃ d, distance_meters s = Some d
                        ∧ (d <= default 5000 (Views.cd_radius_meters c))%R)
        recommendations.
Proof.
  apply (generate_post_ok_is_bounded Sample.flat_gis Sample.three_alike
           (Some (Uuid 7%N))); [|reflexivity].
  unfold Views.generate_post.
  cbn [Views.context_missing default from_option Datatypes.id].
  unfold Views.context_errors, Views.point_errors, Views.to_context.
  cbn [Views.cd_user_location Views.pd_latitude Views.pd_longitude
       Views.cd_radius_meters Views.cd_max_results].
  rewrite !decide_True by (lra || lia). reflexivity.
Defined.

(** X27. [GenerateRecommendationsView.post] checks the request before it
    looks the user up: it answers 404 exactly when the [user_id] is a
    well-formed id, the context is present and passes validation, and no
    profile has that id; a request with an invalid context gets 400
    whatever the [user_id] is; and the view raises, with
    [ValidationError], exactly when a malformed [user_id] comes with a
    context that passes validation. *)
Theorem generate_post_not_found_after_validation (gis : GIS) (db : DB)
    (user_id : option id_value) (context_data : option Views.ContextData) :
  ((∃ response, Views.generate_post db user_id context_data = Returned response
                ∧ Views.status response = 404%Z)
   ↔ ∃ id c, user_id = Some (Uuid id) ∧ context_data = Some c
             ∧ Views.context_missing context_data = false
             ∧ Views.context_errors c = []
             ∧ profiles db !! id = None)
  ∧ (∀ c, context_data = Some c → Views.context_errors c ≠ [] →
          ∃ response,
            Views.generate_post db user_id context_data = Returned response
            ∧ Views.status response = 400%Z)
  ∧ (∀ e, Views.generate_post db user_id context_data = Raised e
          ↔ e = ValidationError ∧ user_id = Some Malformed_id
            ∧ ∃ c, context_data = Some c
                   ∧ Views.context_missing context_data = false
                   ∧ Views.context_errors c = []).
Proof.
  unfold Views.generate_post, ScoringService.objects_get.
  split; [|split].
  - split.
    + intros (response & Hcall & Hst).
      destruct user_id as [uid|]; [|by injection Hcall as <-].
      destruct (Views.context_missing context_data) eqn:Hmiss;
        [by injection Hcall as <-|].
      destruct context_data as [c|]; [|done].
      cbn [default from_option Datatypes.id] in *.
      destruct (Views.context_errors c) as [|e errors] eqn:Herr;
        [|by injection Hcall as <-].
      destruct (context_errors_nil c Herr) as (context & Hctx & _).
      rewrite Hctx in Hcall.
      destruct uid as [id|]; [|done].
      destruct (profiles db !! id) eqn:Hprof; [by injection Hcall as <-|].
      by exists id, c.
    + intros (id & c & -> & -> & Hmiss & Herr & Hprof).
      rewrite Hmiss. cbn [default from_option Datatypes.id]. rewrite Herr.
      destruct (context_errors_nil c Herr) as (context & -> & _).
      rewrite Hprof. by eexists.
  - intros c -> Herr. destruct user_id as [uid|]; [|by eexists].
    destruct (Views.context_missing (Some c)); [by eexists|].
    cbn [default from_option Datatypes.id].
    destruct (Views.context_errors c); [done|by eexists].
  - intros e. split.
    + intros Hcall.
      destruct user_id as [uid|]; [|done].
      destruct (Views.context_missing context_data) eqn:Hmiss; [done|].
      destruct context_data as [c|]; [|done].
      cbn [default from_option Datatypes.id] in *.
      destruct (Views.context_errors c) as [|e' errors] eqn:Herr; [|done].
      destruct (context_errors_nil c Herr) as (context & Hctx & _).
      rewrite Hctx in Hcall.
      destruct uid as [id|].
      * by destruct (profiles db !! id).
      * injection Hcall as <-. split; [done|]. split; [done|]. by exists c.
    + intros (-> & -> & c & -> & Hmiss & Herr).
      rewrite Hmiss. cbn [default from_option Datatypes.id]. rewrite Herr.
      by destruct (context_errors_nil c Herr) as (context & -> & _).
Qed.

Lemma generate_post_not_found_after_validation_witness :
  ∃ response,
    @Views.generate_post Sample.flat_gis Sample.empty_db (Some Malformed_id)
      (Some {| Views.cd_user_location := None; Views.cd_time_of_day := None;
               Views.cd_is_open_only := None;
               Views.cd_radius_meters := Some 50%R;
               Views.cd_max_results := None |}) = Returned response
    ∧ Views.status response = 400%Z.
Proof.
  eapply (generate_post_not_found_after_validation Sample.flat_gis);
    [reflexivity|done].
Defined.

(** X28. [BlacklistPOIView.post] answers 200 with its success message
    when the [poi_id] is well formed and no stored POI has it, whatever
    the duration is, and stores nothing; it answers 500 to a malformed
    [poi_id] and 400 to a request without one; and whenever its answer
    is not 200, nothing has been stored. *)
Theorem blacklist_post_reports_success_for_unknown_poi (db : DB)
    (now : datetime) (reason0 : option string)
    (duration_hours : option hours_value) :
  (∀ id, (∀ poi, poi ∈ pois db → poi_id poi ≠ id) →
         Views.blacklist_post db now (Some (Uuid id)) reason0 duration_hours
         = (db, {| Views.data := Views.Message_blacklisted (Uuid id);
                   Views.status := 200 |}))
  ∧ Views.blacklist_post db now (Some Malformed_id) reason0 duration_hours
    = (db, {| Views.data := Views.Error_raised ValidationError;
              Views.status := 500 |})
  ∧ Views.blacklist_post db now None reason0 duration_hours
    = (db, {| Views.data := Views.Error "poi_id is required";
              Views.status := 400 |})
  ∧ (∀ poi_id,
       Views.status (Views.blacklist_post db now poi_id reason0 duration_hours).2
       ≠ 200%Z →
       (Views.blacklist_post db now poi_id reason0 duration_hours).1 = db).
Proof.
  split; [|split; [done|split; [done|]]].
  - intros id Hnone. unfold Views.blacklist_post, TrendAnalyzer.blacklist_place.
    destruct (list_find (λ p, poi_id p = id) (pois db)) as [[k p]|] eqn:Hfind;
      [|done].
    apply list_find_Some in Hfind as (Hk & Hid & _).
    destruct (Hnone p); [by eapply list_elem_of_lookup_2|done].
  - intros poi_id. unfold Views.blacklist_post.
    destruct poi_id as [poi_id|]; [|done].
    by destruct (TrendAnalyzer.blacklist_place _ _ _ _ _) as [[db' log]|e].
Qed.

Lemma blacklist_post_reports_success_for_unknown_poi_witness :
  Views.blacklist_post Sample.three_alike 0 (Some (Uuid 9%N)) None
    (Some Not_a_number)
  = (Sample.three_alike,
     {| Views.data := Views.Message_blacklisted (Uuid 9%N);
        Views.status := 200 |}).
Proof.
  apply (blacklist_post_reports_success_for_unknown_poi Sample.three_alike 0
           None (Some Not_a_number)).
  intros poi Hin. unfold Sample.three_alike in Hin. cbn [pois] in Hin.
  rewrite !elem_of_cons, elem_of_nil in Hin.
  by destruct Hin as [->|[->|[->|[]]]].
Defined.

(** * Properties of following *)

Section FollowFacts.
Import Follow.

Lemma add_followers_cancel (d : Z) (c : counts) :
  add_followers (- d) (add_followers d c) = c.
Proof. destruct c. unfold add_followers. cbn. f_equal. lia. Qed.

Lemma add_following_cancel (d : Z) (c : counts) :
  add_following (- d) (add_following d c) = c.
Proof. destruct c. unfold add_following. cbn. f_equal. lia. Qed.

Lemma bump_rows_lookup (d : Z) (m : gmap N counts) (a b u : N) :
  a ≠ b →
  alter (add_followers d) b (alter (add_following d) a m) !! u
  = if decide (u = a) then add_following d <$> m !! a
    else if decide (u = b) then add_followers d <$> m !! b
    else m !! u.
Proof.
  intros Hab. rewrite !lookup_alter.
  repeat case_decide; subst; try done.
Qed.

Lemma bump_rows_cancel (d : Z) (m : gmap N counts) (a b : N) :
  a ≠ b →
  alter (add_followers (- d)) b
    (alter (add_following (- d)) a
       (alter (add_followers d) b (alter (add_following d) a m))) = m.
Proof.
  intros Hab. apply map_eq. intros u.
  rewrite bump_rows_lookup by done. rewrite !bump_rows_lookup by done.
  repeat case_decide; subst; try done.
  - destruct (m !! a); cbn; [|done]. by rewrite add_following_cancel.
  - destruct (m !! b); cbn; [|done]. by rewrite add_followers_cancel.
Qed.

Lemma follow_applies (st : State) (a b : N) :
  a ≠ b → (a, b) ∉ relations st →
  follow st a b
  = {| rows := alter (add_followers 1) b (alter (add_following 1) a (rows st));
       relations := {[ (a, b) ]} ∪ relations st |}.
Proof.
  intros Hab Hnot. unfold follow, is_following.
  rewrite bool_decide_eq_true_2 by done.
  by rewrite bool_decide_eq_false_2.
Qed.

Lemma unfollow_applies (st : State) (a b : N) :
  a ≠ b → (a, b) ∈ relations st →
  unfollow st a b
  = {| rows := alter (add_followers (-1)) b (alter (add_following (-1)) a (rows st));
       relations := relations st ∖ {[ (a, b) ]} |}.
Proof.
  intros Hab Hin. unfold unfollow, is_following.
  by rewrite !bool_decide_eq_true_2.
Qed.

Lemma size_filter_add (P : N * N → Prop) `{!∀ r, Decision (P r)}
    (p : N * N) (R : gset (N * N)) :
  p ∉ R →
  Z.of_nat (size (filter P ({[ p ]} ∪ R)))
  = ((if decide (P p) then 1 else 0) + Z.of_nat (size (filter P R)))%Z.
Proof.
  intros Hp. rewrite filter_union_L, size_union.
  - destruct (decide (P p)) as [HP|HP].
    + rewrite (filter_singleton_True_L P p HP), size_singleton. lia.
    + rewrite (filter_singleton_False_L P p HP), size_empty. lia.
  - intros r Hr1 Hr2. apply elem_of_filter in Hr1 as [_ Hr1].
    apply elem_of_filter in Hr2 as [_ Hr2].
    apply elem_of_singleton in Hr1 as ->. done.
  - apply _.
Qed.

Lemma size_filter_remove (P : N * N → Prop) `{!∀ r, Decision (P r)}
    (p : N * N) (R : gset (N * N)) :
  p ∈ R →
  Z.of_nat (size (filter P (R ∖ {[ p ]})))
  = (Z.of_nat (size (filter P R)) - (if decide (P p) then 1 else 0))%Z.
Proof.
  intros Hp.
  assert (R = {[ p ]} ∪ (R ∖ {[ p ]})) as HR.
  { apply set_eq. intros r. rewrite elem_of_union, elem_of_difference,
      elem_of_singleton.
    destruct (decide (r = p)) as [->|?]; tauto. }
  rewrite HR at 2. rewrite size_filter_add by set_solver. lia.
Qed.

Lemma size_filter_empty (P : N * N → Prop) `{!∀ r, Decision (P r)} :
  size (filter P (∅ : gset (N * N))) = 0.
Proof.
  apply size_empty_iff. intros r. split; intros Hr.
  - apply elem_of_filter in Hr as [_ Hr]. by apply not_elem_of_empty in Hr.
  - by apply not_elem_of_empty in Hr.
Qed.
End FollowFacts.

(** X29. Following and then unfollowing brings every counter and every
    relation row back to what it was, and so does unfollowing and then
    following again; following oneself and following someone already
    followed change nothing. *)
Theorem follow_unfollow_round_trip (st : Follow.State) (self target : uuid) :
  self ≠ target →
  (Follow.is_following st self target = false →
   Follow.is_following (Follow.follow st self target) self target = true
   ∧ Follow.unfollow (Follow.follow st self target) self target = st)
  ∧ (Follow.is_following st self target = true →
     Follow.is_following (Follow.unfollow st self target) self target = false
     ∧ Follow.follow (Follow.unfollow st self target) self target = st)
  ∧ Follow.follow st self self = st
  ∧ Follow.follow (Follow.follow st self target) self target
    = Follow.follow st self target.
Proof.
  intros Hne. split; [|split; [|split]].
  - intros Hnot. apply bool_decide_eq_false in Hnot.
    rewrite follow_applies by done. split.
    + apply bool_decide_eq_true. cbn. set_solver.
    + rewrite unfollow_applies by (done || (cbn; set_solver)). cbn.
      rewrite (bump_rows_cancel 1) by done.
      destruct st as [m R]. cbn in *. f_equal. set_solver.
  - intros Hin. apply bool_decide_eq_true in Hin.
    rewrite unfollow_applies by done. split.
    + apply bool_decide_eq_false. cbn. set_solver.
    + rewrite follow_applies by (done || (cbn; set_solver)). cbn.
      pose proof (bump_rows_cancel (-1) (Follow.rows st) self target Hne) as Hc.
      change (- (-1))%Z with 1%Z in Hc. cbn [Follow.rows]. rewrite Hc.
      destruct st as [m R]. cbn in *. f_equal.
      apply set_eq. intros r. rewrite elem_of_union, elem_of_difference,
        elem_of_singleton.
      destruct (decide (r = (self, target))) as [->|?]; tauto.
  - unfold Follow.follow. by rewrite bool_decide_eq_false_2 by tauto.
  - destruct (Follow.is_following st self target) eqn:Hf.
    + unfold Follow.follow at 2. rewrite Hf, andb_false_r.
      unfold Follow.follow. by rewrite Hf, andb_false_r.
    + apply bool_decide_eq_false in Hf.
      rewrite (follow_applies st) by done.
      unfold Follow.follow, Follow.is_following. cbn [Follow.relations].
      rewrite (bool_decide_eq_true_2 ((self, target) ∈ _)) by set_solver.
      by rewrite andb_false_r.
Qed.

Lemma follow_unfollow_round_trip_witness :
  Follow.unfollow
    (Follow.follow
       {| Follow.rows := {[ 1%N := {| Follow.followers_count := 0;
                                     Follow.following_count := 0 |} ]};
          Follow.relations := ∅ |} 1%N 2%N) 1%N 2%N
  = {| Follow.rows := {[ 1%N := {| Follow.followers_count := 0;
                                  Follow.following_count := 0 |} ]};
       Follow.relations := ∅ |}.
Proof.
  apply follow_unfollow_round_trip; [done|].
  apply bool_decide_eq_false. cbn. set_solver.
Defined.

(** X30. [follow] and [unfollow] keep the counters in step with the
    relation rows: if every profile's [following_count] and
    [followers_count] equal the numbers of relation rows it appears in
    as follower and as followed, the same holds afterwards, so neither
    counter can drop below zero. *)
Theorem follow_keeps_counts_consistent (st : Follow.State) (self target : uuid) :
  Follow.counts_consistent st →
  Follow.counts_consistent (Follow.follow st self target)
  ∧ Follow.counts_consistent (Follow.unfollow st self target)
  ∧ ∀ u c, Follow.rows (Follow.unfollow st self target) !! u = Some c →
           (0 ≤ Follow.followers_count c ∧ 0 ≤ Follow.following_count c)%Z.
Proof.
  intros Hst.
  assert (Follow.counts_consistent (Follow.unfollow st self target)) as Hun.
  { unfold Follow.unfollow.
    destruct (bool_decide (self ≠ target)) eqn:Hne; [|done].
    destruct (Follow.is_following st self target) eqn:Hf; [|done].
    apply bool_decide_eq_true in Hne, Hf. cbn [andb].
    intros u c. cbn [Follow.rows Follow.relations].
    rewrite bump_rows_lookup by done.
    rewrite !(size_filter_remove _ (self, target)) by done. cbn [fst snd].
    destruct (decide (u = self)) as [->|Hus].
    - rewrite decide_True by done. rewrite (decide_False (P := target = self)) by done.
      destruct (Follow.rows st !! self) as [c0|] eqn:Hc0; [|done].
      intros [= <-]. destruct (Hst _ _ Hc0) as [H1 H2]. cbn. lia.
    - rewrite (decide_False (P := self = u)) by done.
      destruct (decide (u = target)) as [->|Hut].
      + rewrite decide_True by done.
        destruct (Follow.rows st !! target) as [c0|] eqn:Hc0; [|done].
        intros [= <-]. destruct (Hst _ _ Hc0) as [H1 H2]. cbn. lia.
      + rewrite (decide_False (P := target = u)) by done.
        intros Hc. destruct (Hst _ _ Hc) as [H1 H2]. lia. }
  split; [|split; [done|]].
  - unfold Follow.follow.
    destruct (bool_decide (self ≠ target)) eqn:Hne; [|done].
    destruct (Follow.is_following st self target) eqn:Hf; [done|].
    apply bool_decide_eq_true in Hne. apply bool_decide_eq_false in Hf.
    cbn [andb negb].
    intros u c. cbn [Follow.rows Follow.relations].
    rewrite bump_rows_lookup by done.
    rewrite !(size_filter_add _ (self, target)) by done. cbn [fst snd].
    destruct (decide (u = self)) as [->|Hus].
    + rewrite decide_True by done. rewrite (decide_False (P := target = self)) by done.
      destruct (Follow.rows st !! self) as [c0|] eqn:Hc0; [|done].
      intros [= <-]. destruct (Hst _ _ Hc0) as [H1 H2]. cbn. lia.
    + rewrite (decide_False (P := self = u)) by done.
      destruct (decide (u = target)) as [->|Hut].
      * rewrite decide_True by done.
        destruct (Follow.rows st !! target) as [c0|] eqn:Hc0; [|done].
        intros [= <-]. destruct (Hst _ _ Hc0) as [H1 H2]. cbn. lia.
      * rewrite (decide_False (P := target = u)) by done.
        intros Hc. destruct (Hst _ _ Hc) as [H1 H2]. lia.
  - intros u c Hc. destruct (Hun _ _ Hc) as [H1 H2]. lia.
Qed.

Lemma follow_keeps_counts_consistent_witness :
  Follow.counts_consistent
    (Follow.follow
       {| Follow.rows := {[ 1%N := {| Follow.followers_count := 0;
                                     Follow.following_count := 0 |} ]};
          Follow.relations := ∅ |} 1%N 2%N).
Proof.
  apply follow_keeps_counts_consistent.
  intros u c Hc. cbn [Follow.rows Follow.relations] in *.
  apply lookup_singleton_Some in Hc as [<- <-].
  rewrite !size_filter_empty. done.
Defined.
